(** * MailDownloader: a shallow embedding of [automatic_attachement_download.py]

    The script logs into a list of Gmail accounts over IMAP, looks for
    unread messages whose [From] header is a key of the account's
    [senders_dict], saves their attachments under [base_dir/<today>] and
    marks them as read.

    The Python methods of [EmailDownloader] are embedded as computations
    in a state-and-exception monad.  The state holds the downloader
    object ([self]) and the part of the outside world the script acts on
    (directories, files, the seen flags of the messages, the log, the
    calls it makes).  What the outside world answers (the IMAP server, the file
    system) is a parameter [env] of every method. *)

From Stdlib Require Import Ascii String.
From stdpp Require Import gmap strings list.
From Equations Require Import Equations.
From Equations.Prop Require Import Logic.

Set Warnings "-register-all".


(** ** Constants (lines 8-11) *)

Definition GMAIL_IMAP_SERVER : string := "imap.gmail.com".
Definition UNREAD_EMAIL_CRITERIA : string := "UNSEEN".
Definition MAX_RETRIES : nat := 3.
Definition RETRY_DELAY : nat := 5.

(** ** Data *)

Abbreviation bytes := (list Byte.byte).
Abbreviation email_id := string (only parsing).
Abbreviation imap_handle := nat (only parsing).

(** The exceptions the script tells apart.  [imaplib.IMAP4.abort] is a
    subclass of [imaplib.IMAP4.error]; everything else ([OSError],
    [TypeError], [AttributeError], ...) is an [Exception] that is neither. *)
Inductive exn :=
| IMAP4_error (what : string)
| IMAP4_abort (what : string)
| OtherException (what : string).

(** [except imaplib.IMAP4.error] and
    [except (imaplib.IMAP4.abort, imaplib.IMAP4.error)] *)
Definition is_IMAP4_error (e : exn) : bool :=
  match e with
  | IMAP4_error _ | IMAP4_abort _ => true
  | OtherException _ => false
  end.

(** [except Exception] *)
Definition is_Exception (e : exn) : bool := true.

(** What the script reads of a MIME part: the main type of its
    [Content-Type], its [Content-Disposition] header ([None] when the
    header is absent), the file name [get_filename()] finds, and for the
    root part the text of the [From] header as it stands in the message
    ([None] when the message has none). *)
Record headers := Headers {
  h_from : option string;
  h_maintype : string;
  h_disposition : option string;
  h_filename : option string }.

(** An [email.message.Message]: its payload is either decoded bytes or a
    list of sub-messages ([is_multipart()] is true exactly then). *)
Inductive message :=
| Leaf (h : headers) (payload : bytes)
| Multipart (h : headers) (parts : list message).

Definition msg_headers (m : message) : headers :=
  match m with Leaf h _ | Multipart h _ => h end.

Definition is_multipart (m : message) : bool :=
  match m with Leaf _ _ => false | Multipart _ _ => true end.

Definition get_content_maintype (m : message) : string := h_maintype (msg_headers m).
Definition get_disposition (m : message) : option string := h_disposition (msg_headers m).
Definition get_filename (m : message) : option string := h_filename (msg_headers m).

(** A header of ASCII characters only.  [email.message_from_bytes] gives
    such a header as a [str]; a header with a byte above 127 it gives as
    an [email.header.Header] object. *)
Fixpoint ascii_only (s : string) : bool :=
  match s with
  | "" => true
  | String c r => (nat_of_ascii c <? 128) && ascii_only r
  end.

(** [msg['From']] when it is a [str]; [None] when the header is absent
    and when it is a [Header] object, which is no [str]. *)
Definition get_from (m : message) : option string :=
  match h_from (msg_headers m) with
  | Some raw => if ascii_only raw then Some raw else None
  | None => None
  end.

(** [msg['From']] is an [email.header.Header] object: it has an
    [__eq__] and no [__hash__], so it cannot be looked up in a [dict]. *)
Definition from_is_header (m : message) : bool :=
  match h_from (msg_headers m) with
  | Some raw => negb (ascii_only raw)
  | None => false
  end.

(** [part.get_payload(decode=True)]: the decoded bytes, [None] for a
    multipart payload. *)
Definition get_payload_decoded (m : message) : option bytes :=
  match m with Leaf _ b => Some b | Multipart _ _ => None end.

(** [msg.walk()]: the part itself, then its sub-parts, depth first. *)
Fixpoint walk (m : message) : list message :=
  match m with
  | Leaf _ _ => [m]
  | Multipart _ ps => m :: concat (map walk ps)
  end.

(** [os.path.join] of [posixpath] for two components. *)
Definition startswith_sep (s : string) : bool :=
  match s with
  | String "/"%char _ => true
  | _ => false
  end.

Fixpoint endswith_sep (s : string) : bool :=
  match s with
  | "" => false
  | String c "" => bool_decide (c = "/"%char)
  | String _ r => endswith_sep r
  end.

Definition os_path_join (a b : string) : string :=
  if startswith_sep b then b
  else if bool_decide (a = "") || endswith_sep a then a +:+ b
  else a +:+ "/" +:+ b.

(** ** The log and the calls made to the outside *)

Inductive level := INFO | ERROR.

(** One constructor for each [logging] call of the script. *)
Inductive log_msg :=
| Connected (user : string)
| ConnectAttemptFailed (retries max_retries : nat) (error : exn)
| RetryingConnection (delay : nat)
| ConnectGaveUp (max_retries : nat)
| CreatedDirectory (dir : string)
| DirectoryError (dir : string) (error : exn)
| NotConnected
| DownloadAttemptFailed (retries max_retries : nat) (error : exn)
| RetryingDownload (delay : nat)
| DownloadGaveUp (max_retries : nat)
| FetchFailed (id : email_id)
| SenderNotListed (sender : option string)
| ProcessingError (id : email_id) (error : exn)
| Downloaded (filename : string) (sender : option string)
| SaveError (filename : string) (error : exn)
| LoggedOut (user : string).

Inductive event :=
| Log (lvl : level) (m : log_msg)
| Sleep (seconds : nat)
| ImapOpen (server : string)
| ImapLogin (h : imap_handle) (user pass : string)
| ImapSelect (h : imap_handle) (mailbox : string)
| ImapSearch (h : imap_handle) (criteria : string)
| ImapFetch (h : imap_handle) (id : email_id) (what : string)
| ImapStore (h : imap_handle) (id : email_id) (command flags : string)
| ImapLogout (h : imap_handle)
| Makedirs (path : string)
| FileOpenWb (path : string)
| FileWrite (path : string) (data : bytes).

(** Calls that write to the file system, and the call that sets a flag. *)
Definition is_fs_write (e : event) : bool :=
  match e with
  | Makedirs _ | FileOpenWb _ | FileWrite _ _ => true
  | _ => false
  end.

Definition is_store (e : event) : bool :=
  match e with
  | ImapStore _ _ _ _ => true
  | _ => false
  end.

(** Calls that concern the mailbox and its messages. *)
Definition is_message_call (e : event) : bool :=
  match e with
  | ImapSelect _ _ | ImapSearch _ _ | ImapFetch _ _ _ | ImapStore _ _ _ _ => true
  | _ => false
  end.

(** ** State *)

(** The fields of an [EmailDownloader] (lines 17-24). *)
Record downloader := Downloader {
  email_user : string;
  email_pass : string;
  base_dir : string;
  senders_dict : gmap string string;
  mail : option imap_handle;
  attachments_dir : option string }.

(** The outside world as the script changes it.  [fs_dirs] are the
    directories there are.  The files are kept twice: [fs_files] has,
    under each path name the script wrote through, what it last wrote
    there; [fs_disk] has the files as they are on the disk, each under
    the [fs_realpath] of its path, so that two spellings of one file
    ([r.pdf] and [./r.pdf]) are one entry, which holds what was written
    last through either.  [seen] holds the ids of the
    messages that have the [\Seen] flag through a call of the script: a
    [STORE +FLAGS \Seen] that went through, or a [FETCH] of [RFC822]
    that delivered the message.  [n_open] and [n_select] count the
    connections opened and the mailbox selections made so far; [trace]
    is every outside call and log line in order. *)
Record world := World {
  fs_dirs : gset string;
  fs_files : gmap string bytes;
  fs_disk : gmap string bytes;
  seen : gset string;
  today : string;
  n_open : nat;
  n_select : nat;
  trace : list event }.

Record state := State { self : downloader; wld : world }.

(** What the outside answers.  A connection attempt is answered by its
    number, a selection and search by theirs, a message by its id, a
    path by its name.

    [srv_search] answers an exception or the [data[0]] of the search:
    the ids, or [None] when the server sent no [SEARCH] line.
    [fs_makedirs_err] is what [os.makedirs] raises, if anything, and
    [fs_makedirs_parents] the directories above the path that it made on
    its way to it, which stay when it then fails.  [fs_realpath] is the
    file a path names on this disk: two spellings of one file have the
    same. *)
Record env := Env {
  srv_open : nat → exn + imap_handle;
  srv_login : imap_handle → option exn;
  srv_select : nat → option exn;
  srv_search : nat → exn + option (list email_id);
  srv_fetch : email_id → exn + (string * option message);
  srv_store : email_id → option exn;
  srv_logout : imap_handle → option exn;
  fs_makedirs_err : string → option exn;
  fs_open_err : string → option exn;
  fs_write_err : string → option exn;
  fs_makedirs_parents : string → gset string;
  fs_realpath : string → string }.

(** ** The monad *)

Inductive outcome (A : Type) :=
| Returns (a : A)
| Raises (e : exn).
Arguments Returns {A} a.
Arguments Raises {A} e.

Definition M (A : Type) : Type := state → outcome A * state.

Global Instance M_ret : MRet M := λ A a s, (Returns a, s).
Global Instance M_bind : MBind M := λ A B f m s,
  match m s with
  | (Returns a, s') => f a s'
  | (Raises e, s') => (Raises e, s')
  end.

Definition raise {A} (e : exn) : M A := λ s, (Raises e, s).

(** [try: body  except <catches> as error: handler error] *)
Definition try_except {A} (body : M A) (catches : exn → bool) (handler : exn → M A) : M A :=
  λ s, match body s with
       | (Raises e, s') => if catches e then handler e s' else (Raises e, s')
       | r => r
       end.

Definition gets {A} (f : state → A) : M A := λ s, (Returns (f s), s).
Definition modify (f : state → state) : M unit := λ s, (Returns tt, f s).

Definition upd_world (f : world → world) : M unit :=
  modify (λ s, State (self s) (f (wld s))).

Definition emit (e : event) (w : world) : world :=
  World (fs_dirs w) (fs_files w) (fs_disk w) (seen w) (today w) (n_open w) (n_select w) (trace w ++ [e]).

Definition set_mail (m : option imap_handle) : M unit :=
  modify (λ s, let d := self s in
    State (Downloader (email_user d) (email_pass d) (base_dir d) (senders_dict d)
                      m (attachments_dir d)) (wld s)).

Definition set_attachments_dir (p : option string) : M unit :=
  modify (λ s, let d := self s in
    State (Downloader (email_user d) (email_pass d) (base_dir d) (senders_dict d)
                      (mail d) p) (wld s)).

(** ** The outside calls *)

Definition logging (lvl : level) (m : log_msg) : M unit := upd_world (emit (Log lvl m)).
Definition time_sleep (seconds : nat) : M unit := upd_world (emit (Sleep seconds)).

(** An answer of the outside that is an exception or nothing. *)
Definition answer (o : option exn) : M unit :=
  match o with Some e => raise e | None => mret tt end.

(** The server sets the [\Seen] flag of message [id]. *)
Definition mark_seen (id : email_id) : M unit :=
  upd_world (λ w,
    World (fs_dirs w) (fs_files w) (fs_disk w) ({[id]} ∪ seen w) (today w) (n_open w) (n_select w) (trace w)).

(** A fetch of [what] that is answered [r] sets the [\Seen] flag: it
    asks for [RFC822] and the answer is OK with the message. *)
Definition fetch_sets_seen (what : string) (r : string * option message) : bool :=
  bool_decide (what = "(RFC822)") && bool_decide (r.1 = "OK")
  && match r.2 with Some _ => true | None => false end.

(** [for x in xs: body x]; an exception ends the loop. *)
Fixpoint for_each {A} (xs : list A) (body : A → M unit) : M unit :=
  match xs with
  | [] => mret tt
  | x :: rest => body x ;; for_each rest body
  end.

(** The retry loop that [connect] and [download_attachments] share:
<<
    retries = 0
    while retries < MAX_RETRIES:
        try:
            attempt
            return
        except <IMAP4 error> as error:
            retries += 1
            failed retries error
    exhausted
>>
    [failed] is the handler after [retries += 1]; [exhausted] is the
    code after the loop. *)
Equations? while_retries (attempt : M unit) (failed : nat → exn → M unit)
    (exhausted : M unit) (retries : nat) (s : state) : outcome unit * state
    by wf (MAX_RETRIES - retries) lt :=
  while_retries attempt failed exhausted retries s
    with inspect (retries <? MAX_RETRIES) := {
    | exist _ true Hlt =>
        match attempt s with
        | (Returns _, s1) => (Returns tt, s1)
        | (Raises error, s1) =>
            if is_IMAP4_error error
            then match failed (retries + 1) error s1 with
                 | (Returns _, s2) =>
                     while_retries attempt failed exhausted (retries + 1) s2
                 | (Raises e, s2) => (Raises e, s2)
                 end
            else (Raises error, s1)
        end
    | exist _ false Hge => exhausted s }.
Proof. apply Nat.ltb_lt in Hlt. lia. Qed.

Section Methods.
Variable E : env.

(** *** The IMAP connection *)

(** [imaplib.IMAP4_SSL(server)] *)
Definition IMAP4_SSL (server : string) : M imap_handle :=
  k ← gets (λ s, n_open (wld s));
  upd_world (λ w, emit (ImapOpen server)
    (World (fs_dirs w) (fs_files w) (fs_disk w) (seen w) (today w) (S k) (n_select w) (trace w))) ;;
  match srv_open E k with
  | inl e => raise e
  | inr h => mret h
  end.

Definition imap_login (h : imap_handle) (user pass : string) : M unit :=
  upd_world (emit (ImapLogin h user pass)) ;; answer (srv_login E h).

Definition imap_select (h : imap_handle) (mailbox : string) : M unit :=
  k ← gets (λ s, n_select (wld s));
  upd_world (λ w, emit (ImapSelect h mailbox)
    (World (fs_dirs w) (fs_files w) (fs_disk w) (seen w) (today w) (n_open w) (S k) (trace w))) ;;
  answer (srv_select E k).

(** [result, data = mail.search(None, criteria)]: the [data[0]] of the
    answer, the ids in the order of the server or [None]. *)
Definition imap_search (h : imap_handle) (criteria : string)
  : M (option (list email_id)) :=
  k ← gets (λ s, pred (n_select (wld s)));
  upd_world (emit (ImapSearch h criteria)) ;;
  match srv_search E k with
  | inl e => raise e
  | inr data => mret data
  end.

(** [mail.fetch(id, what)].  The FETCH of [RFC822] is that of [BODY[]]:
    on a mailbox selected for writing, as [select('inbox')] selects it,
    the server sets the [\Seen] flag of a message it delivers this way
    (RFC 3501, 6.4.5); a [PEEK] form would not. *)
Definition imap_fetch (h : imap_handle) (id : email_id) (what : string)
  : M (string * option message) :=
  upd_world (emit (ImapFetch h id what)) ;;
  match srv_fetch E id with
  | inl e => raise e
  | inr r =>
      (if fetch_sets_seen what r then mark_seen id else mret tt) ;;
      mret r
  end.

Definition imap_store (h : imap_handle) (id : email_id) (command flags : string) : M unit :=
  upd_world (emit (ImapStore h id command flags)) ;;
  answer (srv_store E id) ;;
  upd_world (λ w,
    World (fs_dirs w) (fs_files w) (fs_disk w) ({[id]} ∪ seen w) (today w) (n_open w) (n_select w) (trace w)).

Definition imap_logout (h : imap_handle) : M unit :=
  upd_world (emit (ImapLogout h)) ;; answer (srv_logout E h).

(** A method call on [self.mail]: on [None] Python raises
    [AttributeError]. *)
Definition on_mail {A} (f : imap_handle → M A) : M A :=
  m ← gets (λ s, mail (self s));
  match m with
  | Some h => f h
  | None => raise (OtherException "AttributeError")
  end.

(** *** The file system *)

Definition os_path_isdir (p : string) : M bool :=
  gets (λ s, bool_decide (p ∈ fs_dirs (wld s))).

(** [os.makedirs(p)]: the missing directories above [p] are made
    first and stay; then [p] is made, or the call raises. *)
Definition os_makedirs (p : string) : M unit :=
  upd_world (emit (Makedirs p)) ;;
  upd_world (λ w,
    World (fs_makedirs_parents E p ∪ fs_dirs w) (fs_files w) (fs_disk w) (seen w) (today w)
          (n_open w) (n_select w) (trace w)) ;;
  answer (fs_makedirs_err E p) ;;
  upd_world (λ w,
    World ({[p]} ∪ fs_dirs w) (fs_files w) (fs_disk w) (seen w) (today w) (n_open w) (n_select w) (trace w)).

Definition set_file (p : string) (data : bytes) : M unit :=
  upd_world (λ w,
    World (fs_dirs w) (<[p := data]> (fs_files w))
          (<[fs_realpath E p := data]> (fs_disk w)) (seen w) (today w)
          (n_open w) (n_select w) (trace w)).

(** [open(p, 'wb')]: creates the file that [p] names or truncates
    it. *)
Definition open_wb (p : string) : M unit :=
  upd_world (emit (FileOpenWb p)) ;;
  answer (fs_open_err E p) ;;
  set_file p [].

(** [file.write(data)] on the file just opened; [data] is [None] when
    [get_payload(decode=True)] gave nothing, and [write] raises
    [TypeError] then. *)
Definition file_write (p : string) (data : option bytes) : M unit :=
  match data with
  | None => raise (OtherException "TypeError")
  | Some b =>
      upd_world (emit (FileWrite p b)) ;;
      answer (fs_write_err E p) ;;
      set_file p b
  end.

(** ** [connect] (lines 26-41) *)

(** The [try] block; [self.mail] is the handle just assigned to it. *)
Definition connect_attempt : M unit :=
  h ← IMAP4_SSL GMAIL_IMAP_SERVER;
  set_mail (Some h) ;;
  user ← gets (λ s, email_user (self s));
  pass ← gets (λ s, email_pass (self s));
  imap_login h user pass ;;
  logging INFO (Connected user).

Definition connect_failed (retries : nat) (error : exn) : M unit :=
  logging ERROR (ConnectAttemptFailed retries MAX_RETRIES error) ;;
  if retries <? MAX_RETRIES
  then logging INFO (RetryingConnection RETRY_DELAY) ;; time_sleep RETRY_DELAY
  else mret tt.

Definition connect_exhausted : M unit :=
  logging ERROR (ConnectGaveUp MAX_RETRIES) ;;
  set_mail None.

Definition connect : M unit :=
  while_retries connect_attempt connect_failed connect_exhausted 0.

(** ** [create_attachments_directory] (lines 43-53) *)

Definition create_attachments_directory : M unit :=
  today_date ← gets (λ s, today (wld s));
  base ← gets (λ s, base_dir (self s));
  let dir := os_path_join base today_date in
  set_attachments_dir (Some dir) ;;
  exists_ ← os_path_isdir dir;
  if negb exists_
  then try_except
         (os_makedirs dir ;; logging INFO (CreatedDirectory dir))
         is_Exception
         (λ error, logging ERROR (DirectoryError dir error) ;;
                   set_attachments_dir None)
  else mret tt.

(** ** [is_attachment], [save_attachment], [save_attachments] (lines 98-117) *)

Definition is_attachment (part : message) : bool :=
  bool_decide (get_content_maintype part ≠ "multipart")
  && bool_decide (get_disposition part ≠ None).

(** [os.path.join(self.attachments_dir, filename)]: a [TypeError] when
    [attachments_dir] is [None]. *)
Definition join_attachments_dir (filename : string) : M string :=
  d ← gets (λ s, attachments_dir (self s));
  match d with
  | Some dir => mret (os_path_join dir filename)
  | None => raise (OtherException "TypeError")
  end.

(** [if filename:] is false on [None] and on the empty string. *)
Definition truthy (o : option string) : bool :=
  match o with
  | Some s => bool_decide (s ≠ "")
  | None => false
  end.

Definition save_attachment (part : message) (sender_email : option string) : M unit :=
  let filename := get_filename part in
  if truthy filename then
    let name := default "" filename in
    filepath ← join_attachments_dir name;
    try_except
      (open_wb filepath ;;
       file_write filepath (get_payload_decoded part) ;;
       logging INFO (Downloaded name sender_email))
      is_Exception
      (λ error, logging ERROR (SaveError name error))
  else mret tt.

Definition save_attachments (msg : message) (sender_email : option string) : M unit :=
  if is_multipart msg
  then for_each (walk msg)
         (λ part, if is_attachment part then save_attachment part sender_email
                  else mret tt)
  else mret tt.

(** ** [process_email] (lines 78-96) *)

(** [sender_email in self.senders_dict]; a missing [From] header gives
    [None], which is no key. *)
Definition in_senders (sender_email : option string) (d : gmap string string) : bool :=
  match sender_email with
  | Some a => bool_decide (is_Some (d !! a))
  | None => false
  end.

(** The test [sender_email in self.senders_dict] on the [From] header
    of [msg]: a [Header] object cannot be hashed, and the test raises
    [TypeError]. *)
Definition sender_in_dict (msg : message) (d : gmap string string) : M bool :=
  if from_is_header msg
  then raise (OtherException "TypeError")
  else mret (in_senders (get_from msg) d).

(** [email.message_from_bytes(msg_data[0][1])]; [None] stands for fetched
    data without the expected (envelope, bytes) pair, on which the
    indexing raises [TypeError]. *)
Definition message_from_bytes (msg_data : option message) : M message :=
  match msg_data with
  | Some msg => mret msg
  | None => raise (OtherException "TypeError")
  end.

(** Lines 81-94: what is done with the answer of the fetch. *)
Definition process_fetched (email_id : email_id) (fetched : string * option message)
  : M unit :=
  let result := fetched.1 in
  let msg_data := fetched.2 in
  if bool_decide (result ≠ "OK")
  then logging ERROR (FetchFailed email_id)
  else
    msg ← message_from_bytes msg_data;
    let sender_email := get_from msg in
    senders ← gets (λ s, senders_dict (self s));
    listed ← sender_in_dict msg senders;
    if (listed : bool)
    then save_attachments msg sender_email ;;
         on_mail (λ h, imap_store h email_id "+FLAGS" "\Seen")
    else logging INFO (SenderNotListed sender_email).

(** Lines 80-94: the [try] block. *)
Definition process_email_try (email_id : email_id) : M unit :=
  fetched ← on_mail (λ h, imap_fetch h email_id "(RFC822)");
  process_fetched email_id fetched.

Definition process_email (email_id : email_id) : M unit :=
  try_except
    (process_email_try email_id)
    is_Exception
    (λ error, logging ERROR (ProcessingError email_id error)).

(** ** [download_attachments] (lines 55-76) *)

(** [data[0].split()] (line 65): on [None] Python raises
    [AttributeError]. *)
Definition split_ids (data : option (list email_id)) : M (list email_id) :=
  match data with
  | Some ids => mret ids
  | None => raise (OtherException "AttributeError")
  end.

(** The [try] block; [self.mail] is the handle that passed the test of
    line 56, nothing in between assigns to it. *)
Definition download_attempt (h : imap_handle) : M unit :=
  imap_select h "inbox" ;;
  data ← imap_search h UNREAD_EMAIL_CRITERIA;
  email_ids ← split_ids data;
  for_each email_ids process_email.

Definition download_failed (retries : nat) (error : exn) : M unit :=
  logging ERROR (DownloadAttemptFailed retries MAX_RETRIES error) ;;
  if retries <? MAX_RETRIES
  then logging INFO (RetryingDownload RETRY_DELAY) ;; time_sleep RETRY_DELAY
  else mret tt.

Definition download_exhausted : M unit :=
  logging ERROR (DownloadGaveUp MAX_RETRIES).

Definition download_attachments : M unit :=
  m ← gets (λ s, mail (self s));
  match m with
  | None => logging ERROR NotConnected
  | Some h => while_retries (download_attempt h) download_failed download_exhausted 0
  end.

(** ** [logout] (lines 119-122) *)

Definition logout : M unit :=
  m ← gets (λ s, mail (self s));
  match m with
  | Some h =>
      imap_logout h ;;
      user ← gets (λ s, email_user (self s));
      logging INFO (LoggedOut user)
  | None => mret tt
  end.

(** ** [main] (lines 124-160) *)

Record account := Account {
  acc_email_user : string;
  acc_email_pass : string;
  acc_base_dir : string;
  acc_senders_dict : gmap string string }.

(** [EmailDownloader(...)] bound to the loop's variable [downloader]. *)
Definition new_downloader (a : account) : M unit :=
  modify (λ s,
    State (Downloader (acc_email_user a) (acc_email_pass a) (acc_base_dir a)
                      (acc_senders_dict a) None None) (wld s)).

(** The body of the loop over the accounts (lines 147-160). *)
Definition run_account (a : account) : M unit :=
  new_downloader a ;;
  connect ;;
  create_attachments_directory ;;
  dir ← gets (λ s, attachments_dir (self s));
  (if truthy dir then download_attachments else mret tt) ;;
  logout.

Definition run_accounts (email_accounts : list account) : M unit :=
  for_each email_accounts run_account.

Definition email_accounts : list account :=
  [ Account "example@gmai.com" "password" "Your Base Directory"
      (<["example1@example.com" := "Example Sender 1"]>
       (<["example2@example.com" := "Example Sender 2"]> ∅));
    Account "example2@gmail.com" "password" "BASE_DIR_2"
      (<["example3@example.com" := "Example Sender 3"]>
       (<["example4@example.com" := "Example Sender 4"]> ∅)) ].

Definition main : M unit := run_accounts email_accounts.

End Methods.

(** * Vocabulary of the properties *)

(** The state after the fetch of [id] has delivered the message: the
    call is in the trace and the message has its [\Seen] flag. *)
Definition fetched_state (h : imap_handle) (id : email_id) (s : state) : state :=
  State (self s)
    (World (fs_dirs (wld s)) (fs_files (wld s)) (fs_disk (wld s)) ({[id]} ∪ seen (wld s)) (today (wld s))
           (n_open (wld s)) (n_select (wld s))
           (trace (wld s) ++ [ImapFetch h id "(RFC822)"])).

(** [c] is one of the characters of [s]. *)
Fixpoint has_char (c : ascii) (s : string) : bool :=
  match s with
  | "" => false
  | String c' r => bool_decide (c' = c) || has_char c r
  end.

(** [m] relates every state to the state it leaves, returning or
    raising. *)
Definition preserves {A} (R : relation state) (m : M A) : Prop :=
  ∀ s, R s (m s).2.

(** [m] raises nothing but exceptions in [P]. *)
Definition raises_only {A} (P : exn → Prop) (m : M A) : Prop :=
  ∀ s e, (m s).1 = Raises e → P e.

(** The observation [f] of the state is left as it was. *)
Definition keeps {B} (f : state → B) : relation state :=
  λ s s', f s' = f s.

(** The trace grows, by events in [Q] only. *)
Definition extends (Q : event → Prop) : relation state :=
  λ s s', ∃ t, trace (wld s') = trace (wld s) ++ t ∧ Forall Q t.

(** What connection attempt number [k] comes to: the exception of the
    constructor or of the login, or the handle logged in. *)
Definition attempt_result (E : env) (k : nat) : exn + imap_handle :=
  match srv_open E k with
  | inl e => inl e
  | inr h => match srv_login E h with
             | Some e => inl e
             | None => inr h
             end
  end.

(** Attempt [k] fails with an [imaplib.IMAP4.error], the one failure
    that [connect] catches and tries again after. *)
Definition fails_with_imap_error (E : env) (k : nat) : bool :=
  match attempt_result E k with
  | inl e => is_IMAP4_error e
  | inr _ => false
  end.

Definition is_open (e : event) : bool :=
  match e with
  | ImapOpen _ => true
  | _ => false
  end.

(** The connection attempts in a trace, and the waits with their length. *)
Definition attempts (t : list event) : nat := length (List.filter is_open t).

Definition sleeps (t : list event) : list nat :=
  omap (λ e, match e with Sleep n => Some n | _ => None end) t.

Definition is_fetch (e : event) : bool :=
  match e with
  | ImapFetch _ _ _ => true
  | _ => false
  end.

(** The ids fetched in a trace, in order. *)
Definition fetches (t : list event) : list email_id :=
  omap (λ e, match e with ImapFetch _ id _ => Some id | _ => None end) t.

(** The file [save_attachments] writes for a part of the message: the
    part must pass [is_attachment] and have a file name that is not
    empty; the file is that name joined to the output directory. *)
Definition attachment_path (dir : string) (part : message) : option string :=
  if is_attachment part && truthy (get_filename part)
  then Some (os_path_join dir (default "" (get_filename part)))
  else None.


(** * The specification's sentences that the code does not bear out *)

(** "If connect fails, log and return; no directory is created, no
    messages are touched." *)
Definition stated_connection_failed (E : env) (a : account) (s : state) : Prop :=
  (∀ i, i < 3 → fails_with_imap_error E (n_open (wld s) + i) = true) →
  let r := run_account E a s in
  r.1 = Returns tt
  ∧ Log ERROR (ConnectGaveUp 3) ∈ trace (wld r.2)
  ∧ fs_dirs (wld r.2) = fs_dirs (wld s)
  ∧ fs_files (wld r.2) = fs_files (wld s)
  ∧ seen (wld r.2) = seen (wld s).


(** "Idempotent: no-op if not connected.  Never raises; internal errors
    are logged, not propagated." *)
Definition stated_close_never_raises (E : env) (s : state) : Prop :=
  (logout E s).1 = Returns tt
  ∧ (logout E (logout E s).2).1 = Returns tt.

(** "Every attachment part with a filename produces exactly one file at
    outputDir/filename containing its decoded payload, and the read flag
    is set to seen." *)
Definition stated_attachments_saved (E : env) (id : email_id) (msg : message)
    (dir : string) (s : state) : Prop :=
  let s' := (process_email E id s).2 in
  (∀ part name data,
     part ∈ walk msg → is_attachment part = true →
     get_filename part = Some name → get_payload_decoded part = Some data →
     fs_disk (wld s') !! fs_realpath E (os_path_join dir name) = Some data)
  ∧ id ∈ seen (wld s').

(** "Transient error: a protocol/transport failure expected to be
    retry-recoverable": an IMAP error of the server, or the [OSError]
    of a connection that is refused, reset or timed out. *)
Definition transient (e : exn) : bool :=
  match e with
  | IMAP4_error _ | IMAP4_abort _ => true
  | OtherException what => bool_decide (what = "OSError")
  end.

(** Attempt [k] fails transiently. *)
Definition fails_transiently (E : env) (k : nat) : bool :=
  match attempt_result E k with
  | inl e => transient e
  | inr _ => false
  end.

(** "Given a connect function that fails transiently N times then
    succeeds, connect succeeds iff N < 3, using exactly N+1 attempts and
    N delay waits." *)
Definition stated_connect_retry (E : env) (s : state) (N : nat) (h : imap_handle)
  : Prop :=
  let k0 := n_open (wld s) in
  let r := connect E s in
  (∀ i, i < N → fails_transiently E (k0 + i) = true) →
  attempt_result E (k0 + N) = inr h →
  r.1 = Returns tt
  ∧ (is_Some (mail (self r.2)) ↔ N < 3)
  ∧ (N < 3 →
     ∃ t, trace (wld r.2) = trace (wld s) ++ t
          ∧ attempts t = N + 1 ∧ sleeps t = replicate N 5).

(** "Processing M produces zero filesystem writes and leaves M's read
    flag unchanged; only an informational log line is emitted." *)
Definition stated_unlisted_untouched (E : env) (id : email_id) (s : state) : Prop :=
  let s' := (process_email E id s).2 in
  (∀ st msg a, srv_fetch E id = inr (st, Some msg) →
     get_from msg = Some a → senders_dict (self s) !! a = None) →
  fs_files (wld s') = fs_files (wld s)
  ∧ (id ∈ seen (wld s') ↔ id ∈ seen (wld s))
  ∧ ∃ t, trace (wld s') = trace (wld s) ++ t
         ∧ Forall (λ e, ∀ lvl m, e = Log lvl m → lvl = INFO) t.

(** * Sample runs *)

Definition ex_senders : gmap string string := {["a@x.com" := "Alice"]}.

Definition ex_account : account :=
  Account "first@gmail.com" "secret" "base" ex_senders.


(** Before [main] has made a downloader: nothing on disk, nothing done. *)
Definition ex_start : state :=
  State (Downloader "" "" "" ∅ None None) (World ∅ ∅ ∅ ∅ "2024-01-02" 0 0 []).

(** A downloader that is connected and has its directory of the day. *)
Definition ex_connected : state :=
  State (Downloader "first@gmail.com" "secret" "base" ex_senders
                    (Some 7) (Some "base/2024-01-02"))
        (World {["base/2024-01-02"]} ∅ ∅ ∅ "2024-01-02" 1 0 []).

Definition ex_attachment (name : string) (data : bytes) : message :=
  Leaf (Headers None "application" (Some "attachment") (Some name)) data.

Definition ex_multipart (sender : string) (parts : list message) : message :=
  Multipart (Headers (Some sender) "multipart" None None) parts.

(** Two attachments under two names. *)
Definition ex_report : message :=
  ex_multipart "a@x.com"
    [ Leaf (Headers None "text" None None) [Byte.x68; Byte.x69];
      ex_attachment "a.pdf" [Byte.x01];
      ex_attachment "b.pdf" [Byte.x02] ].

(** Two attachments under one name. *)
Definition ex_twice : message :=
  ex_multipart "a@x.com"
    [ ex_attachment "r.pdf" [Byte.x01];
      ex_attachment "r.pdf" [Byte.x02] ].

(** Two attachments under two spellings of one name. *)
Definition ex_aliased : message :=
  ex_multipart "a@x.com"
    [ ex_attachment "r.pdf" [Byte.x01];
      ex_attachment "./r.pdf" [Byte.x02] ].

Definition ex_stranger : message :=
  ex_multipart "b@y.com" [ ex_attachment "x.pdf" [Byte.x03] ].

(** A sender of the first list of [main], with a display name. *)
Definition ex_named : message :=
  ex_multipart "Example Sender 1 <example1@example.com>"
    [ ex_attachment "x.pdf" [Byte.x03] ].

(** A sender who is not listed and whose display name has a byte
    above 127, unencoded: [msg['From']] is a [Header] object. *)
Definition ex_eight_bit : message :=
  ex_multipart (String (ascii_of_nat 233) "ric <b@y.com>")
    [ ex_attachment "x.pdf" [Byte.x03] ].

(** The first allow-list of [main] (lines 130-133), and a downloader
    that has it. *)
Definition ex_main_senders : gmap string string :=
  <["example1@example.com" := "Example Sender 1"]>
    (<["example2@example.com" := "Example Sender 2"]> ∅).

Definition ex_connected_main : state :=
  State (Downloader "example@gmai.com" "password" "base" ex_main_senders
                    (Some 7) (Some "base/2024-01-02"))
        (World {["base/2024-01-02"]} ∅ ∅ ∅ "2024-01-02" 1 0 []).

(** The directories above the directories of the day of the sample
    accounts: [os.makedirs] makes them when they are not there. *)
Definition ex_parents (p : string) : gset string :=
  if bool_decide (p = "base/2024-01-02") then {["base"]}
  else if bool_decide (p = "base2/2024-01-02") then {["base2"]}
  else ∅.

(** A server and a disk on which everything works, but for the given
    answers to the connections, the fetches and the LOGOUT. *)
Definition ex_env (open : nat → exn + imap_handle)
    (fetch : email_id → exn + (string * option message))
    (logout : imap_handle → option exn) : env :=
  Env open (λ _, None) (λ _, None) (λ _, inr (Some ["1"; "2"])) fetch
      (λ _, None) logout (λ _, None) (λ _, None) (λ _, None) ex_parents (λ p, p).

Definition ex_serving (msg : message) : env :=
  ex_env (λ _, inr 7) (λ _, inr ("OK", Some msg)) (λ _, None).

(** The same, with a disk on which [./r.pdf] in the directory of the day
    is [r.pdf]. *)
Definition ex_serving_aliased : env :=
  Env (λ _, inr 7) (λ _, None) (λ _, None) (λ _, inr (Some ["1"; "2"]))
      (λ _, inr ("OK", Some ex_aliased))
      (λ _, None) (λ _, None) (λ _, None) (λ _, None) (λ _, None) ex_parents
      (λ p, if bool_decide (p = "base/2024-01-02/./r.pdf")
            then "base/2024-01-02/r.pdf" else p).

(** The first [n] connections are refused. *)
Definition ex_refusing (n : nat) : env :=
  ex_env (λ k, if k <? n then inl (IMAP4_error "AUTHENTICATIONFAILED") else inr 7)
         (λ _, inr ("OK", Some ex_report)) (λ _, None).

(** Every connection is refused. *)
Definition ex_down : env :=
  ex_env (λ _, inl (IMAP4_error "AUTHENTICATIONFAILED"))
         (λ _, inr ("OK", Some ex_report)) (λ _, None).

(** The first connection finds no network: an [OSError]. *)
Definition ex_no_network : env :=
  ex_env (λ k, if k <? 1 then inl (OtherException "OSError") else inr 7)
         (λ _, inr ("OK", Some ex_report)) (λ _, None).

(** The LOGOUT finds the connection gone. *)
Definition ex_logout_fails : env :=
  ex_env (λ _, inr 7) (λ _, inr ("OK", Some ex_report))
         (λ _, Some (IMAP4_abort "socket error: EOF")).

(** The fetch of message 1 fails, message 2 is delivered. *)
Definition ex_fetch_fails : env :=
  ex_env (λ _, inr 7)
         (λ id, if bool_decide (id = "1") then inl (IMAP4_abort "socket error: EOF")
                else inr ("OK", Some ex_report))
         (λ _, None).

(** * Vocabulary of the further properties *)

(** What selection-and-search number [k] comes to: the exception of the
    SELECT, of the SEARCH or of the split of its data, or the ids
    found. *)
Definition search_result (E : env) (k : nat) : exn + list email_id :=
  match srv_select E k with
  | Some e => inl e
  | None =>
      match srv_search E k with
      | inl e => inl e
      | inr None => inl (OtherException "AttributeError")
      | inr (Some ids) => inr ids
      end
  end.

(** Selection [k] fails with an error that [download_attachments]
    retries on. *)
Definition search_fails_transiently (E : env) (k : nat) : bool :=
  match search_result E k with
  | inl e => is_IMAP4_error e
  | inr _ => false
  end.

Definition is_select (e : event) : bool :=
  match e with
  | ImapSelect _ _ => true
  | _ => false
  end.

Definition is_logout (e : event) : bool :=
  match e with
  | ImapLogout _ => true
  | _ => false
  end.

Definition is_log (e : event) : bool :=
  match e with
  | Log _ _ => true
  | _ => false
  end.

Definition is_sleep (e : event) : bool :=
  match e with
  | Sleep _ => true
  | _ => false
  end.

(** The mailbox selections in a trace. *)
Definition selections (t : list event) : nat := length (List.filter is_select t).

(** The fetch of [id] delivers, with status OK, a message whose [From]
    header is a key of [d]. *)
Definition delivers_listed (E : env) (d : gmap string string) (id : email_id) : bool :=
  match srv_fetch E id with
  | inr (st, Some msg) => bool_decide (st = "OK") && in_senders (get_from msg) d
  | _ => false
  end.

(** Further sample runs: a server with the given answers to the
    selections and to the searches, and a disk with the given answers to
    [os.makedirs]. *)
Definition ex_searching (select : nat → option exn)
    (search : nat → exn + option (list email_id))
    (makedirs : string → option exn) : env :=
  Env (λ _, inr 7) (λ _, None) select search (λ _, inr ("OK", Some ex_report))
      (λ _, None) (λ _, None) makedirs (λ _, None) (λ _, None) ex_parents (λ p, p).

(** The first [n] selections find the connection in a bad state. *)
Definition ex_select_refusing (n : nat) : env :=
  ex_searching (λ k, if k <? n then Some (IMAP4_abort "socket error: EOF") else None)
               (λ _, inr (Some ["1"; "2"])) (λ _, None).

(** The server answers the search with no [SEARCH] line. *)
Definition ex_search_breaks : env :=
  ex_searching (λ _, None) (λ _, inr None) (λ _, None).

(** The disk is read-only. *)
Definition ex_read_only : env :=
  ex_searching (λ _, None) (λ _, inr (Some ["1"; "2"]))
               (λ _, Some (OtherException "PermissionError")).

(** The login meets an [OSError]. *)
Definition ex_login_breaks : env :=
  Env (λ _, inr 7) (λ _, Some (OtherException "OSError")) (λ _, None)
      (λ _, inr (Some ["1"; "2"])) (λ _, inr ("OK", Some ex_report))
      (λ _, None) (λ _, None) (λ _, None) (λ _, None) (λ _, None) ex_parents (λ p, p).

(** A message that is one part, with a disposition and a file name. *)
Definition ex_flat : message :=
  Leaf (Headers (Some "a@x.com") "application" (Some "attachment") (Some "a.pdf"))
       [Byte.x01].

(** A message that carries another message as an attachment. *)
Definition ex_forward : message :=
  ex_multipart "a@x.com"
    [ Multipart (Headers None "message" (Some "attachment") (Some "fwd.eml"))
        [ Leaf (Headers (Some "c@z.com") "text" None None) [Byte.x68] ] ].

(** The fetch answers NO. *)
Definition ex_fetch_no : env :=
  ex_env (λ _, inr 7) (λ _, inr ("NO", None)) (λ _, None).

(** A connected downloader that has not resolved its directory. *)
Definition ex_no_directory : state :=
  State (Downloader "first@gmail.com" "secret" "base" ex_senders (Some 7) None)
        (World ∅ ∅ ∅ ∅ "2024-01-02" 1 0 []).

(** The fetch of [id] delivers a message with status OK: on a mailbox
    selected read-write, that fetch sets the seen flag. *)
Definition delivers (E : env) (id : email_id) : bool :=
  match srv_fetch E id with
  | inr (st, Some _) => bool_decide (st = "OK")
  | _ => false
  end.

(** [e], if it is a STORE, is for a message of a sender listed in [d]. *)
Definition store_listed (E : env) (d : gmap string string) (e : event) : Prop :=
  ∀ h id flags value, e = ImapStore h id flags value → delivers_listed E d id = true.

(** From [s] to [s'] the downloader and the directories are unchanged,
    no flag is cleared, the messages newly seen are messages that a
    fetch delivers, and the STOREs sent are for messages of listed
    senders. *)
Definition marks_listed_only (E : env) : relation state :=
  λ s s', self s' = self s
          ∧ fs_dirs (wld s') = fs_dirs (wld s)
          ∧ seen (wld s) ⊆ seen (wld s')
          ∧ (∀ id, id ∈ seen (wld s') → id ∈ seen (wld s) ∨ delivers E id = true)
          ∧ ∃ t, trace (wld s') = trace (wld s) ++ t
                 ∧ Forall (store_listed E (senders_dict (self s))) t.

(** * Properties *)

(** ** Unfolding the retry loop *)

Lemma while_retries_step attempt failed exhausted retries s :
  while_retries attempt failed exhausted retries s =
  if retries <? MAX_RETRIES
  then match attempt s with
       | (Returns _, s1) => (Returns tt, s1)
       | (Raises error, s1) =>
           if is_IMAP4_error error
           then match failed (retries + 1) error s1 with
                | (Returns _, s2) =>
                    while_retries attempt failed exhausted (retries + 1) s2
                | (Raises e, s2) => (Raises e, s2)
                end
           else (Raises error, s1)
       end
  else exhausted s.
Proof.
  funelim (while_retries attempt failed exhausted retries s).
  - rewrite Hlt. reflexivity.
  - rewrite Hge. reflexivity.
Qed.

(** ** Running the monad by hand *)

Ltac run_M :=
  cbv beta iota delta
    [mbind mret M_bind M_ret raise try_except gets modify upd_world answer
     logging time_sleep set_mail set_attachments_dir is_Exception] in *.

Ltac run_world :=
  cbv beta iota delta
    [IMAP4_SSL imap_login imap_select imap_search imap_fetch imap_store
     imap_logout on_mail os_path_isdir os_makedirs set_file open_wb
     file_write join_attachments_dir message_from_bytes mark_seen
     sender_in_dict split_ids] in *.

(** Closes an equation between traces. *)
Ltac trace_done := unfold emit; simpl; rewrite <- ?app_assoc; reflexivity.

(** C7: [is_attachment] is true exactly when the main content type of
    the part is not [multipart] and the part has a [Content-Disposition]
    header, false otherwise; the payload of the part plays no role. *)
Theorem is_attachment_spec (part : message) (payload : bytes) :
  (is_attachment part = true ↔
     get_content_maintype part ≠ "multipart" ∧ get_disposition part ≠ None)
  ∧ (is_attachment part = false ↔
     ¬ (get_content_maintype part ≠ "multipart" ∧ get_disposition part ≠ None))
  ∧ is_attachment (Leaf (msg_headers part) payload) = is_attachment part.
Proof.
  assert (Hiff : is_attachment part = true ↔
     get_content_maintype part ≠ "multipart" ∧ get_disposition part ≠ None).
  { unfold is_attachment. rewrite andb_true_iff, !bool_decide_eq_true. done. }
  split; [exact Hiff|]. split.
  - rewrite <- Hiff. symmetry. apply not_true_iff_false.
  - by destruct part.
Qed.

(** ** Directory resolution *)


Lemma create_attachments_directory_existing E s :
  os_path_join (base_dir (self s)) (today (wld s)) ∈ fs_dirs (wld s) →
  create_attachments_directory E s =
    (Returns tt,
     (set_attachments_dir
        (Some (os_path_join (base_dir (self s)) (today (wld s)))) s).2).
Proof.
  intros Hdir. unfold create_attachments_directory. run_world. run_M. simpl.
  by rewrite bool_decide_eq_true_2.
Qed.

(** C9: on a directory that exists already, resolving the output
    directory twice on the same day raises nothing either time, gives
    [base_dir] joined with the date both times, and changes nothing
    outside. *)
Theorem create_attachments_directory_idempotent E s :
  let dir := os_path_join (base_dir (self s)) (today (wld s)) in
  let r1 := create_attachments_directory E s in
  let r2 := create_attachments_directory E r1.2 in
  dir ∈ fs_dirs (wld s) →
  r1.1 = Returns tt ∧ r2.1 = Returns tt
  ∧ attachments_dir (self r1.2) = Some dir
  ∧ attachments_dir (self r2.2) = Some dir
  ∧ wld r1.2 = wld s ∧ wld r2.2 = wld s
  ∧ r2 = r1.
Proof.
  intros dir r1 r2 Hdir. subst r1 r2.
  rewrite (create_attachments_directory_existing E s Hdir).
  rewrite create_attachments_directory_existing; [|exact Hdir].
  done.
Qed.

(** ** Allow-list test *)

Lemma in_senders_true (o : option string) (d : gmap string string) :
  in_senders o d = true ↔ ∃ a label, o = Some a ∧ d !! a = Some label.
Proof.
  destruct o as [a|]; simpl.
  - rewrite bool_decide_eq_true. split.
    + intros [label Hl]. eauto.
    + intros (a' & label & [= <-] & Hl). eauto.
  - split; [done|]. by intros (a & label & [=] & _).
Qed.

Lemma in_senders_false (o : option string) (d : gmap string string) :
  in_senders o d = false ↔ ∀ a, o = Some a → d !! a = None.
Proof.
  destruct o as [a|]; simpl.
  - rewrite bool_decide_eq_false, <- eq_None_not_Some. split.
    + by intros Hn a' [= <-].
    + intros Hn. by apply Hn.
  - split; [by intros _ a [=]|done].
Qed.

(** A [From] header that is a [Header] object is no [str]. *)
Lemma from_is_header_get_from msg :
  from_is_header msg = true → get_from msg = None.
Proof.
  unfold from_is_header, get_from.
  destruct (h_from (msg_headers msg)) as [raw|]; [|done].
  by destruct (ascii_only raw).
Qed.

Lemma in_senders_is_str msg d :
  in_senders (get_from msg) d = true → from_is_header msg = false.
Proof.
  destruct (from_is_header msg) eqn:Hh; [|done].
  by rewrite (from_is_header_get_from msg Hh).
Qed.

Lemma fetch_sets_seen_rfc822 st md :
  fetch_sets_seen "(RFC822)" (st, md)
  = bool_decide (st = "OK") && match md with Some _ => true | None => false end.
Proof. done. Qed.

(** ** One message *)

(** What [process_email] comes to on a fetched message that the test of
    line 89 does not find in [senders_dict]. *)
Lemma process_email_not_listed E h id msg s :
  mail (self s) = Some h →
  srv_fetch E id = inr ("OK", Some msg) →
  in_senders (get_from msg) (senders_dict (self s)) = false →
  process_email E id s =
    (Returns tt,
     State (self s)
       (World (fs_dirs (wld s)) (fs_files (wld s)) (fs_disk (wld s)) ({[id]} ∪ seen (wld s))
              (today (wld s)) (n_open (wld s)) (n_select (wld s))
              (trace (wld s)
                 ++ [ImapFetch h id "(RFC822)";
                     if from_is_header msg
                     then Log ERROR (ProcessingError id (OtherException "TypeError"))
                     else Log INFO (SenderNotListed (get_from msg))]))).
Proof.
  intros Hmail Hfetch Hout. unfold process_email, process_email_try, process_fetched.
  run_world. run_M. simpl.
  rewrite Hmail, Hfetch. simpl.
  destruct (from_is_header msg); simpl.
  - unfold emit. simpl. by rewrite <- ?app_assoc.
  - rewrite Hout. unfold emit. simpl. by rewrite <- ?app_assoc.
Qed.

(** C6, as the code has it: a message whose [From] header is no key of
    [senders_dict] causes no write to the file system, so that no file
    and no directory changes, and no STORE, whatever the fetch answers,
    and the flag of no other message changes.  When the fetch delivers it, one line is logged: the
    informational one when the header is a [str] or absent, and the
    error line of the [TypeError] of the test when the header is a
    [Header] object. *)
Theorem process_email_unlisted_sender E id s :
  let s' := (process_email E id s).2 in
  (∀ st msg a, srv_fetch E id = inr (st, Some msg) →
     get_from msg = Some a → senders_dict (self s) !! a = None) →
  (process_email E id s).1 = Returns tt
  ∧ fs_files (wld s') = fs_files (wld s)
  ∧ fs_disk (wld s') = fs_disk (wld s)
  ∧ fs_dirs (wld s') = fs_dirs (wld s)
  ∧ (∀ id', id' ≠ id → id' ∈ seen (wld s') ↔ id' ∈ seen (wld s))
  ∧ (∃ t, trace (wld s') = trace (wld s) ++ t
          ∧ Forall (λ e, is_fs_write e = false ∧ is_store e = false) t)
  ∧ (∀ h msg, mail (self s) = Some h →
       srv_fetch E id = inr ("OK", Some msg) →
       trace (wld s') = trace (wld s)
         ++ [ImapFetch h id "(RFC822)";
             if from_is_header msg
             then Log ERROR (ProcessingError id (OtherException "TypeError"))
             else Log INFO (SenderNotListed (get_from msg))]).
Proof.
  intros s' Hout. subst s'.
  assert (Hlisted : ∀ st msg, srv_fetch E id = inr (st, Some msg) →
            in_senders (get_from msg) (senders_dict (self s)) = false).
  { intros st msg Hf. apply in_senders_false. intros a. by apply (Hout st msg a). }
  assert (Hrun : ∃ w' t,
    process_email E id s = (Returns tt, State (self s) w')
    ∧ fs_files w' = fs_files (wld s) ∧ fs_disk w' = fs_disk (wld s)
    ∧ fs_dirs w' = fs_dirs (wld s)
    ∧ (seen w' = seen (wld s) ∨ seen w' = {[id]} ∪ seen (wld s))
    ∧ trace w' = trace (wld s) ++ t
    ∧ Forall (λ e, is_fs_write e = false ∧ is_store e = false) t).
  { destruct (mail (self s)) as [h|] eqn:Hmail.
    - destruct (srv_fetch E id) as [e|[st [msg|]]] eqn:Hf.
      + unfold process_email, process_email_try, process_fetched. run_world. run_M.
        simpl. rewrite Hmail, Hf. simpl. eexists _, [_; _].
        split_and!; [reflexivity|done|done|done|by left|trace_done|].
        by repeat constructor.
      + destruct (decide (st = "OK")) as [->|Hst].
        * rewrite (process_email_not_listed E h id msg s Hmail Hf (Hlisted _ _ eq_refl)).
          eexists _, [_; _].
          split_and!; [reflexivity|done|done|done|by right|done|].
          destruct (from_is_header msg); by repeat constructor.
        * unfold process_email, process_email_try, process_fetched. run_world. run_M.
          simpl. rewrite Hmail, Hf. simpl.
          rewrite fetch_sets_seen_rfc822, !bool_decide_eq_false_2 by done. simpl.
          rewrite bool_decide_eq_true_2 by done. simpl. eexists _, [_; _].
          split_and!; [reflexivity|done|done|done|by left|trace_done|].
          by repeat constructor.
      + unfold process_email, process_email_try, process_fetched. run_world. run_M.
        simpl. rewrite Hmail, Hf. simpl.
        rewrite fetch_sets_seen_rfc822, andb_false_r. simpl.
        case_bool_decide; simpl; eexists _, [_; _];
          (split_and!; [reflexivity|done|done|done|by left|trace_done|]);
          by repeat constructor.
    - unfold process_email, process_email_try, process_fetched. run_world. run_M.
      simpl. rewrite Hmail. simpl. eexists _, [_].
      split_and!; [reflexivity|done|done|done|by left|done|]. by repeat constructor. }
  destruct Hrun as (w' & t & Hrun & Hfiles & Hdisk & Hdirs & Hseen & Ht & Hq).
  split_and!.
  - by rewrite Hrun.
  - by rewrite Hrun.
  - by rewrite Hrun.
  - by rewrite Hrun.
  - intros id' Hne. rewrite Hrun. simpl. destruct Hseen as [->| ->]; [done|].
    rewrite elem_of_union, elem_of_singleton. split; [by intros [?|?]|by right].
  - rewrite Hrun. by exists t.
  - intros h msg Hmail Hf.
    by rewrite (process_email_not_listed E h id msg s Hmail Hf (Hlisted _ _ Hf)).
Qed.

Lemma string_length_app (a b : string) :
  String.length (a +:+ b) = String.length a + String.length b.
Proof. induction a as [|c a IH]; simpl; [done|]. by rewrite IH. Qed.

Lemma display_name_differs (display addr : string) :
  display +:+ " <" +:+ addr +:+ ">" ≠ addr.
Proof.
  intros Heq. apply (f_equal String.length) in Heq.
  rewrite !string_length_app in Heq. simpl in Heq. lia.
Qed.

Lemma has_char_app c (a b : string) :
  has_char c (a +:+ b) = has_char c a || has_char c b.
Proof. induction a as [|c' a IH]; simpl; [done|]. by rewrite IH, orb_assoc. Qed.

Lemma display_name_has_angle (display addr : string) :
  has_char "<" (display +:+ " <" +:+ addr +:+ ">") = true.
Proof. rewrite has_char_app. simpl. apply orb_true_r. Qed.

(** C10: the allow-list test is a dictionary lookup of the whole [From]
    header.  On an allow-list whose keys are bare addresses, with the
    address of the sender among them, a header that carries a display
    name in front of the address in angle brackets is no key: the bare
    address would pass the test, the header does not, so nothing is
    saved and no STORE is sent.  When the header is a [str], the message
    is logged as one of an unlisted sender; when the display name has
    raw 8-bit bytes, the header is a [Header] object, the test raises
    [TypeError] and the message is logged as failed. *)
Theorem process_email_display_name E h id display addr label msg s :
  let sender := display +:+ " <" +:+ addr +:+ ">" in
  let s' := (process_email E id s).2 in
  mail (self s) = Some h →
  srv_fetch E id = inr ("OK", Some msg) →
  h_from (msg_headers msg) = Some sender →
  map_Forall (λ k _, has_char "<" k = false) (senders_dict (self s)) →
  senders_dict (self s) !! addr = Some label →
  in_senders (Some addr) (senders_dict (self s)) = true
  ∧ senders_dict (self s) !! sender = None
  ∧ in_senders (get_from msg) (senders_dict (self s)) = false
  ∧ (process_email E id s).1 = Returns tt
  ∧ fs_files (wld s') = fs_files (wld s)
  ∧ fs_disk (wld s') = fs_disk (wld s)
  ∧ (∃ t, trace (wld s') = trace (wld s) ++ t
          ∧ Forall (λ e, is_fs_write e = false ∧ is_store e = false) t)
  ∧ trace (wld s') =
      trace (wld s)
        ++ [ImapFetch h id "(RFC822)";
            if ascii_only sender
            then Log INFO (SenderNotListed (Some sender))
            else Log ERROR (ProcessingError id (OtherException "TypeError"))].
Proof.
  intros sender s' Hmail Hfetch Hfrom Hbare Haddr. subst s'.
  assert (Hnokey : senders_dict (self s) !! sender = None).
  { destruct (senders_dict (self s) !! sender) as [l|] eqn:Hk; [|done].
    specialize (Hbare sender l Hk). simpl in Hbare.
    unfold sender in Hbare. by rewrite display_name_has_angle in Hbare. }
  assert (Hout : in_senders (get_from msg) (senders_dict (self s)) = false).
  { apply in_senders_false. intros a Ha. unfold get_from in Ha. rewrite Hfrom in Ha.
    destruct (ascii_only sender); [|done]. by injection Ha as <-. }
  assert (Hin : in_senders (Some addr) (senders_dict (self s)) = true).
  { apply in_senders_true. by exists addr, label. }
  rewrite (process_email_not_listed E h id msg s Hmail Hfetch Hout).
  split_and!; [done|done|done|done|done|done| |].
  - eexists [_; _]. split; [done|].
    destruct (from_is_header msg); by repeat constructor.
  - simpl. unfold from_is_header, get_from. rewrite Hfrom.
    by destruct (ascii_only sender).
Qed.

(** ** [logout] *)

Lemma logout_not_connected E s :
  mail (self s) = None → logout E s = (Returns tt, s).
Proof. intros Hm. unfold logout. run_M. by rewrite Hm. Qed.

(** C3, as the code has it: without a connection handle [logout] does
    nothing, so it may be repeated.  With a handle it sends the LOGOUT,
    logs and keeps the handle, so a second call sends the LOGOUT again;
    and what the LOGOUT raises is raised to the caller, with no log
    line. *)
Theorem logout_behaviour E s :
  logout E s =
    match mail (self s) with
    | None => (Returns tt, s)
    | Some h =>
        match srv_logout E h with
        | None =>
            (Returns tt,
             State (self s)
               (emit (Log INFO (LoggedOut (email_user (self s))))
                  (emit (ImapLogout h) (wld s))))
        | Some e => (Raises e, State (self s) (emit (ImapLogout h) (wld s)))
        end
    end
  ∧ self (logout E s).2 = self s
  ∧ logout E (logout E s).2 =
      match mail (self s) with
      | None => (Returns tt, s)
      | Some h =>
          match srv_logout E h with
          | None =>
              (Returns tt,
               State (self s)
                 (emit (Log INFO (LoggedOut (email_user (self s))))
                    (emit (ImapLogout h)
                       (emit (Log INFO (LoggedOut (email_user (self s))))
                          (emit (ImapLogout h) (wld s))))))
          | Some e =>
              (Raises e,
               State (self s) (emit (ImapLogout h) (emit (ImapLogout h) (wld s))))
          end
      end.
Proof.
  assert (Heq : logout E s =
    match mail (self s) with
    | None => (Returns tt, s)
    | Some h =>
        match srv_logout E h with
        | None =>
            (Returns tt,
             State (self s)
               (emit (Log INFO (LoggedOut (email_user (self s))))
                  (emit (ImapLogout h) (wld s))))
        | Some e => (Raises e, State (self s) (emit (ImapLogout h) (wld s)))
        end
    end).
  { unfold logout. run_world. run_M. simpl.
    destruct (mail (self s)) as [h|]; [|done].
    by destruct (srv_logout E h). }
  split_and!; [exact Heq| |].
  - rewrite Heq. destruct (mail (self s)) as [h|]; [|done].
    by destruct (srv_logout E h).
  - rewrite Heq. destruct (mail (self s)) as [h|] eqn:Hm.
    + unfold logout. run_world. run_M.
      destruct (srv_logout E h) eqn:Hl; simpl; by rewrite Hm, Hl.
    + simpl. by apply logout_not_connected.
Qed.

(** ** Frame rules of the monad *)

Global Instance keeps_preorder {B} (f : state → B) : PreOrder (keeps f).
Proof.
  split; [by intros s|]. intros s1 s2 s3 H12 H23. unfold keeps in *. congruence.
Qed.

Global Instance extends_preorder (Q : event → Prop) : PreOrder (extends Q).
Proof.
  split.
  - intros s. exists []. split; [by rewrite app_nil_r|constructor].
  - intros s1 s2 s3 (t1 & H1 & Q1) (t2 & H2 & Q2). exists (t1 ++ t2).
    split; [by rewrite H2, H1, app_assoc|by apply Forall_app].
Qed.

Section Frame.
Context (R : relation state) `{!PreOrder R}.

Lemma preserves_ret {A} (a : A) : preserves R (mret a).
Proof. intros s. simpl. reflexivity. Qed.

Lemma preserves_raise {A} (e : exn) : preserves R (raise (A := A) e).
Proof. intros s. simpl. reflexivity. Qed.

Lemma preserves_gets {A} (f : state → A) : preserves R (gets f).
Proof. intros s. simpl. reflexivity. Qed.

Lemma preserves_answer (o : option exn) : preserves R (answer o).
Proof. destruct o; [apply preserves_raise|apply preserves_ret]. Qed.

Lemma preserves_bind {A B} (m : M A) (f : A → M B) :
  preserves R m → (∀ a, preserves R (f a)) → preserves R (m ≫= f).
Proof.
  intros Hm Hf s. specialize (Hm s). unfold mbind, M_bind.
  destruct (m s) as [[a|e] s1]; simpl in *; [|done].
  etrans; [exact Hm|apply Hf].
Qed.

Lemma preserves_try_except {A} (body : M A) catches handler :
  preserves R body → (∀ e, preserves R (handler e)) →
  preserves R (try_except body catches handler).
Proof.
  intros Hb Hh s. specialize (Hb s). unfold try_except.
  destruct (body s) as [[a|e] s1]; simpl in *; [done|].
  destruct (catches e); [|done]. etrans; [exact Hb|apply Hh].
Qed.

Lemma preserves_for_each {A} (xs : list A) (body : A → M unit) :
  (∀ x, preserves R (body x)) → preserves R (for_each xs body).
Proof.
  intros Hb. induction xs as [|x xs IH]; simpl.
  - apply preserves_ret.
  - apply preserves_bind; [apply Hb|by intros _].
Qed.

Lemma preserves_while_retries attempt failed exhausted retries :
  preserves R attempt → (∀ n e, preserves R (failed n e)) →
  preserves R exhausted →
  preserves R (while_retries attempt failed exhausted retries).
Proof.
  intros Ha Hf Hx.
  remember (MAX_RETRIES - retries) as togo eqn:Htogo.
  revert retries Htogo. induction togo as [|togo IH]; intros retries Htogo s;
    rewrite while_retries_step.
  - destruct (Nat.ltb_spec retries MAX_RETRIES); [lia|]. apply Hx.
  - destruct (Nat.ltb_spec retries MAX_RETRIES); [|apply Hx].
    specialize (Ha s). destruct (attempt s) as [[[]|e] s1]; simpl in *; [done|].
    destruct (is_IMAP4_error e); [|done].
    specialize (Hf (retries + 1) e s1).
    destruct (failed (retries + 1) e s1) as [[[]|e'] s2]; simpl in *.
    + etrans; [exact Ha|]. etrans; [exact Hf|]. apply IH. lia.
    + by etrans.
Qed.

End Frame.

(** ** What a method can raise *)







Lemma raises_only_try_except {A} (P P' : exn → Prop) (body : M A) catches handler :
  raises_only P' body →
  (∀ e, P' e → catches e = false → P e) →
  (∀ e, raises_only P (handler e)) →
  raises_only P (try_except body catches handler).
Proof.
  intros Hb Hc Hh s e. unfold try_except. specialize (Hb s).
  destruct (body s) as [[a|e'] s1]; simpl in *; [done|].
  destruct (catches e') eqn:Hcatch.
  - apply Hh.
  - intros [= <-]. apply Hc; [by apply Hb|done].
Qed.




Create HintDb methods discriminated.
#[global] Hint Unfold connect connect_attempt connect_failed connect_exhausted
  create_attachments_directory save_attachment save_attachments process_email
  process_email_try process_fetched
  download_attachments download_attempt download_failed download_exhausted
  logout run_account new_downloader
  IMAP4_SSL imap_login imap_select imap_search imap_fetch imap_store
  imap_logout on_mail os_path_isdir os_makedirs set_file open_wb file_write
  join_attachments_dir message_from_bytes mark_seen sender_in_dict split_ids
  logging time_sleep set_mail set_attachments_dir upd_world : methods.

(** Closes the conjuncts of a computed post-state, traces included. *)
Ltac post_state :=
  split_and!; first [reflexivity | simpl; rewrite <- ?app_assoc; reflexivity].

(** Splits a frame goal along the structure of the method. *)
Ltac frame_split :=
  repeat first
    [ apply preserves_ret | apply preserves_raise | apply preserves_gets
    | apply preserves_answer
    | apply preserves_bind
    | apply preserves_try_except
    | apply preserves_for_each
    | apply preserves_while_retries
    | match goal with
      | |- PreOrder _ => apply _
      | |- ∀ _, _ => intros ?
      | |- preserves _ (match ?x with _ => _ end) => destruct x
      end ].

Ltac frame_keeps :=
  autounfold with methods; frame_split;
  match goal with |- preserves (keeps _) (modify _) => by intros ? end.

Ltac frame_extends tac :=
  autounfold with methods; frame_split;
  match goal with
  | |- preserves (extends _) (modify _) =>
      intros ?; simpl;
      first [ by (exists []; split; [by rewrite app_nil_r|constructor])
            | by (eexists [_]; split; [reflexivity|repeat constructor; tac]) ]
  end.

Lemma connect_keeps_world E :
  preserves (keeps (λ s, (fs_dirs (wld s), fs_files (wld s), seen (wld s),
                          today (wld s), n_select (wld s)))) (connect E).
Proof. frame_keeps. Qed.

Lemma connect_keeps_config E :
  preserves (keeps (λ s, (email_user (self s), email_pass (self s), base_dir (self s),
                          senders_dict (self s), attachments_dir (self s)))) (connect E).
Proof. frame_keeps. Qed.

Lemma connect_keeps_disk E :
  preserves (keeps (λ s, fs_disk (wld s))) (connect E).
Proof. frame_keeps. Qed.

Lemma connect_extends E :
  preserves (extends (λ e, is_fs_write e = false ∧ is_message_call e = false)) (connect E).
Proof. frame_extends done. Qed.

(** ** [connect] *)

Lemma attempts_app t1 t2 : attempts (t1 ++ t2) = attempts t1 + attempts t2.
Proof. unfold attempts. by rewrite List.filter_app, length_app. Qed.

Lemma sleeps_app t1 t2 : sleeps (t1 ++ t2) = sleeps t1 ++ sleeps t2.
Proof. apply omap_app. Qed.

(** One pass through the [try] block. *)
Lemma connect_attempt_spec E s :
  ∃ o s1 t,
    connect_attempt E s = (o, s1)
    ∧ trace (wld s1) = trace (wld s) ++ t
    ∧ attempts t = 1 ∧ sleeps t = []
    ∧ n_open (wld s1) = S (n_open (wld s))
    ∧ match attempt_result E (n_open (wld s)) with
      | inl e => o = Raises e
      | inr h => o = Returns tt ∧ mail (self s1) = Some h
      end.
Proof.
  unfold connect_attempt, attempt_result. run_world. run_M. simpl.
  destruct (srv_open E (n_open (wld s))) as [e|h]; simpl.
  - eexists _, _, [_]. post_state.
  - destruct (srv_login E h) as [e|]; simpl.
    + eexists _, _, [_; _]. post_state.
    + eexists _, _, [_; _; _]. post_state.
Qed.

(** The [except] block, entered with [retries] already incremented. *)
Lemma connect_failed_spec retries e s :
  ∃ s1 t,
    connect_failed retries e s = (Returns tt, s1)
    ∧ trace (wld s1) = trace (wld s) ++ t
    ∧ attempts t = 0
    ∧ sleeps t = (if retries <? MAX_RETRIES then [RETRY_DELAY] else [])
    ∧ n_open (wld s1) = n_open (wld s).
Proof.
  unfold connect_failed. run_M. simpl.
  destruct (retries <? MAX_RETRIES); simpl.
  - eexists _, [_; _; _]. post_state.
  - eexists _, [_]. post_state.
Qed.

Lemma connect_loop_succeeds E h N : ∀ retries s,
  retries + N < MAX_RETRIES →
  (∀ i, i < N → fails_with_imap_error E (n_open (wld s) + i) = true) →
  attempt_result E (n_open (wld s) + N) = inr h →
  ∃ s' t,
    while_retries (connect_attempt E) connect_failed connect_exhausted retries s
      = (Returns tt, s')
    ∧ mail (self s') = Some h
    ∧ trace (wld s') = trace (wld s) ++ t
    ∧ attempts t = N + 1 ∧ sleeps t = replicate N RETRY_DELAY.
Proof.
  induction N as [|N IH]; intros retries s Hlt Hfail Hok;
    rewrite while_retries_step;
    (destruct (Nat.ltb_spec retries MAX_RETRIES); [|lia]);
    destruct (connect_attempt_spec E s) as (o & s1 & t1 & -> & Ht1 & Ha1 & Hs1 & Hn1 & Hres).
  - rewrite Nat.add_0_r in Hok. rewrite Hok in Hres. destruct Hres as [-> Hmail].
    by exists s1, t1.
  - specialize (Hfail 0 ltac:(lia)) as Hfail0. rewrite Nat.add_0_r in Hfail0.
    unfold fails_with_imap_error in Hfail0.
    destruct (attempt_result E (n_open (wld s))) as [e|]; [|done].
    subst o. rewrite Hfail0.
    destruct (connect_failed_spec (retries + 1) e s1) as (s2 & t2 & -> & Ht2 & Ha2 & Hs2 & Hn2).
    destruct (Nat.ltb_spec (retries + 1) MAX_RETRIES); [|lia].
    destruct (IH (retries + 1) s2) as (s' & t & -> & Hmail & Ht & Ha & Hs).
    + lia.
    + intros i Hi. rewrite Hn2, Hn1.
      replace (S (n_open (wld s)) + i) with (n_open (wld s) + S i) by lia.
      apply Hfail. lia.
    + rewrite Hn2, Hn1. rewrite <- Hok. f_equal. lia.
    + exists s', (t1 ++ t2 ++ t). split_and!; [done|done| | |].
      * by rewrite Ht, Ht2, Ht1, <- !app_assoc.
      * rewrite !attempts_app. lia.
      * rewrite !sleeps_app, Hs1, Hs2, Hs. done.
Qed.

Lemma connect_loop_exhausts E : ∀ togo retries s,
  retries + togo = MAX_RETRIES →
  (∀ i, i < togo → fails_with_imap_error E (n_open (wld s) + i) = true) →
  ∃ s' t,
    while_retries (connect_attempt E) connect_failed connect_exhausted retries s
      = (Returns tt, s')
    ∧ mail (self s') = None
    ∧ trace (wld s') = trace (wld s) ++ t ++ [Log ERROR (ConnectGaveUp MAX_RETRIES)]
    ∧ attempts t = togo ∧ sleeps t = replicate (pred togo) RETRY_DELAY.
Proof.
  induction togo as [|togo IH]; intros retries s Hsum Hfail;
    rewrite while_retries_step.
  - destruct (Nat.ltb_spec retries MAX_RETRIES); [lia|].
    unfold connect_exhausted. run_M. simpl. by eexists _, [].
  - destruct (Nat.ltb_spec retries MAX_RETRIES); [|lia].
    destruct (connect_attempt_spec E s) as (o & s1 & t1 & -> & Ht1 & Ha1 & Hs1 & Hn1 & Hres).
    specialize (Hfail 0 ltac:(lia)) as Hfail0. rewrite Nat.add_0_r in Hfail0.
    unfold fails_with_imap_error in Hfail0.
    destruct (attempt_result E (n_open (wld s))) as [e|]; [|done].
    subst o. rewrite Hfail0.
    destruct (connect_failed_spec (retries + 1) e s1) as (s2 & t2 & -> & Ht2 & Ha2 & Hs2 & Hn2).
    destruct (IH (retries + 1) s2) as (s' & t & -> & Hmail & Ht & Ha & Hs).
    + lia.
    + intros i Hi. rewrite Hn2, Hn1.
      replace (S (n_open (wld s)) + i) with (n_open (wld s) + S i) by lia.
      apply Hfail. lia.
    + exists s', (t1 ++ t2 ++ t). split_and!; [done|done| | |].
      * by rewrite Ht, Ht2, Ht1, <- !app_assoc.
      * rewrite !attempts_app. lia.
      * rewrite !sleeps_app, Hs1, Hs2, Hs. simpl.
        destruct (Nat.ltb_spec (retries + 1) MAX_RETRIES), togo; simpl; try done; lia.
Qed.

Lemma connect_loop_raises E e N : ∀ retries s,
  retries + N < MAX_RETRIES →
  (∀ i, i < N → fails_with_imap_error E (n_open (wld s) + i) = true) →
  attempt_result E (n_open (wld s) + N) = inl e →
  is_IMAP4_error e = false →
  ∃ s' t,
    while_retries (connect_attempt E) connect_failed connect_exhausted retries s
      = (Raises e, s')
    ∧ trace (wld s') = trace (wld s) ++ t
    ∧ attempts t = N + 1 ∧ sleeps t = replicate N RETRY_DELAY.
Proof.
  induction N as [|N IH]; intros retries s Hlt Hfail Hres Hother;
    rewrite while_retries_step;
    (destruct (Nat.ltb_spec retries MAX_RETRIES); [|lia]);
    destruct (connect_attempt_spec E s) as (o & s1 & t1 & -> & Ht1 & Ha1 & Hs1 & Hn1 & Ho).
  - rewrite Nat.add_0_r in Hres. rewrite Hres in Ho. subst o. rewrite Hother.
    by exists s1, t1.
  - specialize (Hfail 0 ltac:(lia)) as Hfail0. rewrite Nat.add_0_r in Hfail0.
    unfold fails_with_imap_error in Hfail0.
    destruct (attempt_result E (n_open (wld s))) as [e0|]; [|done].
    subst o. rewrite Hfail0.
    destruct (connect_failed_spec (retries + 1) e0 s1) as (s2 & t2 & -> & Ht2 & Ha2 & Hs2 & Hn2).
    destruct (Nat.ltb_spec (retries + 1) MAX_RETRIES); [|lia].
    destruct (IH (retries + 1) s2) as (s' & t & -> & Ht & Ha & Hs).
    + lia.
    + intros i Hi. rewrite Hn2, Hn1.
      replace (S (n_open (wld s)) + i) with (n_open (wld s) + S i) by lia.
      apply Hfail. lia.
    + rewrite Hn2, Hn1. rewrite <- Hres. f_equal. lia.
    + done.
    + exists s', (t1 ++ t2 ++ t). split_and!; [done| | |].
      * by rewrite Ht, Ht2, Ht1, <- !app_assoc.
      * rewrite !attempts_app. lia.
      * rewrite !sleeps_app, Hs1, Hs2, Hs. done.
Qed.

(** C4, as the code has it: [connect] tries again after an
    [imaplib.IMAP4.error] of the constructor or of the login, and after
    nothing else.  When the first [N] attempts fail with such an error
    and the next one succeeds, [connect] ends with a connection exactly
    when [N < 3], after [N + 1] attempts and [N] waits of 5 seconds;
    when every attempt fails with such an error, it makes 3 attempts
    with 2 waits between them, logs that it gave up, returns no value
    and keeps no handle.  Any other exception, the [OSError] of the
    transport among them, is not tried again after: it is raised to the
    caller by the attempt that met it. *)
Theorem connect_retry E s :
  let k0 := n_open (wld s) in
  let r := connect E s in
  (∀ N h,
     (∀ i, i < N → fails_with_imap_error E (k0 + i) = true) →
     attempt_result E (k0 + N) = inr h →
     r.1 = Returns tt
     ∧ (is_Some (mail (self r.2)) ↔ N < 3)
     ∧ (N < 3 →
        mail (self r.2) = Some h
        ∧ ∃ t, trace (wld r.2) = trace (wld s) ++ t
               ∧ attempts t = N + 1 ∧ sleeps t = replicate N 5))
  ∧ ((∀ i, fails_with_imap_error E (k0 + i) = true) →
     r.1 = Returns tt
     ∧ mail (self r.2) = None
     ∧ ∃ t, trace (wld r.2) = trace (wld s) ++ t ++ [Log ERROR (ConnectGaveUp 3)]
            ∧ attempts t = 3 ∧ sleeps t = [5; 5])
  ∧ (∀ N e,
       N < 3 →
       (∀ i, i < N → fails_with_imap_error E (k0 + i) = true) →
       attempt_result E (k0 + N) = inl e →
       is_IMAP4_error e = false →
       r.1 = Raises e
       ∧ ∃ t, trace (wld r.2) = trace (wld s) ++ t
              ∧ attempts t = N + 1 ∧ sleeps t = replicate N 5).
Proof.
  intros k0 r. subst k0 r. unfold connect. split_and!.
  - intros N h Hfail Hok. destruct (Nat.lt_ge_cases N 3) as [Hlt|Hge].
    + destruct (connect_loop_succeeds E h N 0 s) as (s' & t & -> & Hmail & Ht & Ha & Hs);
        [unfold MAX_RETRIES; lia|done|done|].
      simpl. rewrite Hmail. split_and!; [done| |].
      * split; [done|]. by eexists.
      * intros _. split; [done|]. by exists t.
    + destruct (connect_loop_exhausts E 3 0 s) as (s' & t & -> & Hmail & Ht & Ha & Hs);
        [done|intros i Hi; apply Hfail; lia|].
      simpl. rewrite Hmail. split_and!; [done| |lia].
      split; [by intros [? [=]]|lia].
  - intros Hfail.
    destruct (connect_loop_exhausts E 3 0 s) as (s' & t & -> & Hmail & Ht & Ha & Hs);
      [done|intros i Hi; apply Hfail|].
    simpl. split_and!; [done|done|]. by exists t.
  - intros N e Hlt Hfail Hres Hother.
    destruct (connect_loop_raises E e N 0 s) as (s' & t & -> & Ht & Ha & Hs);
      [unfold MAX_RETRIES; lia|done|done|done|].
    simpl. split; [done|]. by exists t.
Qed.

(** ** [process_email] contains what goes wrong with a message *)

Lemma fetches_app t1 t2 : fetches (t1 ++ t2) = fetches t1 ++ fetches t2.
Proof. apply omap_app. Qed.

Lemma fetches_none t : Forall (λ e, is_fetch e = false) t → fetches t = [].
Proof.
  induction 1 as [|e t He _ IH]; [done|]. destruct e; try done; exact IH.
Qed.

Lemma process_email_catches E id s :
  process_email E id s =
    match process_email_try E id s with
    | (Returns _, s1) => (Returns tt, s1)
    | (Raises e, s1) =>
        (Returns tt, State (self s1) (emit (Log ERROR (ProcessingError id e)) (wld s1)))
    end.
Proof.
  unfold process_email. run_M.
  by destruct (process_email_try E id s) as [[[]|e] s1].
Qed.

Lemma process_email_returns E id s : (process_email E id s).1 = Returns tt.
Proof.
  rewrite process_email_catches.
  by destruct (process_email_try E id s) as [[[]|e] s1].
Qed.

Lemma process_email_keeps_self E id : preserves (keeps self) (process_email E id).
Proof. frame_keeps. Qed.

Lemma process_fetched_extends E id fetched :
  preserves (extends (λ e, is_fetch e = false)) (process_fetched E id fetched).
Proof. frame_extends done. Qed.

Lemma process_email_fetches E h id s :
  mail (self s) = Some h →
  ∃ t, trace (wld (process_email E id s).2)
         = trace (wld s) ++ ImapFetch h id "(RFC822)" :: t
       ∧ fetches t = [].
Proof.
  intros Hmail. rewrite process_email_catches.
  unfold process_email_try. run_world. run_M. simpl. rewrite Hmail.
  destruct (srv_fetch E id) as [e|fetched]; simpl.
  - eexists [_]. by rewrite <- app_assoc.
  - assert (Hs1 : ∃ s1, (if fetch_sets_seen "(RFC822)" fetched
                         then λ s0, (Returns tt, (mark_seen id s0).2)
                         else λ s0, (Returns tt, s0))
                          (State (self s) (emit (ImapFetch h id "(RFC822)") (wld s)))
                        = (Returns tt, s1)
                 ∧ trace (wld s1) = trace (wld s) ++ [ImapFetch h id "(RFC822)"]).
    { destruct (fetch_sets_seen "(RFC822)" fetched); by eexists. }
    destruct Hs1 as (s1 & Hs1 & Ht1).
    unfold mark_seen, upd_world, modify in Hs1. simpl in Hs1.
    destruct (fetch_sets_seen "(RFC822)" fetched); injection Hs1 as <-; simpl;
      match goal with |- context [process_fetched E id fetched ?s0] => set (s1 := s0) end;
      destruct (process_fetched_extends E id fetched s1) as (t & Ht & Hq);
      (destruct (process_fetched E id fetched s1) as [[[]|e] s2]; simpl in *;
       [ exists t; split; [by rewrite Ht, <- app_assoc|by apply fetches_none]
       | exists (t ++ [Log ERROR (ProcessingError id e)]); split;
         [ by rewrite Ht, <- !app_assoc
         | by rewrite fetches_app, fetches_none by done ] ]).
Qed.

Lemma for_each_process_email E h ids : ∀ s,
  mail (self s) = Some h →
  (for_each ids (process_email E) s).1 = Returns tt
  ∧ self (for_each ids (process_email E) s).2 = self s
  ∧ ∃ t, trace (wld (for_each ids (process_email E) s).2) = trace (wld s) ++ t
         ∧ fetches t = ids.
Proof.
  induction ids as [|id ids IH]; intros s Hmail; simpl.
  - split_and!; [done|done|]. exists []. by rewrite app_nil_r.
  - unfold mbind, M_bind.
    pose proof (process_email_returns E id s) as Hret.
    pose proof (process_email_keeps_self E id s) as Hself.
    destruct (process_email_fetches E h id s Hmail) as (t1 & Ht1 & Hf1).
    destruct (process_email E id s) as [[[]|e] s1]; simpl in *; [|done].
    unfold keeps in Hself.
    destruct (IH s1) as (Hr & Hs & t & Ht & Hf); [by rewrite Hself|].
    split_and!; [done|by rewrite Hs|].
    exists ((ImapFetch h id "(RFC822)" :: t1) ++ t). split.
    + by rewrite Ht, Ht1, <- !app_assoc.
    + rewrite fetches_app, Hf.
      change (fetches (ImapFetch h id "(RFC822)" :: t1)) with (id :: fetches t1).
      by rewrite Hf1.
Qed.

(** C8: [process_email] raises nothing: whatever its [try] block raises
    (in the fetch, the parsing, the saving or the marking) ends as one
    error line of the log.  A list of messages is therefore gone through
    to its end, one fetch for each id in order, whatever happens to any
    of them. *)
Theorem process_email_isolated E :
  (∀ id s, (process_email E id s).1 = Returns tt)
  ∧ (∀ id s e s1,
       process_email_try E id s = (Raises e, s1) →
       process_email E id s =
         (Returns tt,
          State (self s1) (emit (Log ERROR (ProcessingError id e)) (wld s1))))
  ∧ (∀ h ids s,
       mail (self s) = Some h →
       (for_each ids (process_email E) s).1 = Returns tt
       ∧ ∃ t, trace (wld (for_each ids (process_email E) s).2) = trace (wld s) ++ t
              ∧ fetches t = ids).
Proof.
  split_and!.
  - apply process_email_returns.
  - intros id s e s1 Htry. by rewrite process_email_catches, Htry.
  - intros h ids s Hmail.
    destruct (for_each_process_email E h ids s Hmail) as (Hr & _ & Ht). done.
Qed.

(** ** Saving the attachments of a message *)

Lemma for_each_app {A} (l1 l2 : list A) (body : A → M unit) s :
  for_each (l1 ++ l2) body s =
    match for_each l1 body s with
    | (Returns _, s1) => for_each l2 body s1
    | (Raises e, s1) => (Raises e, s1)
    end.
Proof.
  revert s. induction l1 as [|x l1 IH]; intros s; simpl; [done|].
  unfold mbind, M_bind. destruct (body x s) as [[[]|e] s1]; [apply IH|done].
Qed.

(** The body of the loop of [save_attachments] on one part. *)
Lemma save_part_spec E sender dir part s :
  let r := (if is_attachment part then save_attachment E part sender else mret tt) s in
  attachments_dir (self s) = Some dir →
  r.1 = Returns tt
  ∧ self r.2 = self s
  ∧ seen (wld r.2) = seen (wld s)
  ∧ (∀ q, attachment_path dir part ≠ Some q →
       fs_files (wld r.2) !! q = fs_files (wld s) !! q)
  ∧ (∀ p b, attachment_path dir part = Some p →
       get_payload_decoded part = Some b →
       fs_open_err E p = None → fs_write_err E p = None →
       fs_files (wld r.2) !! p = Some b).
Proof.
  intros r Hdir. subst r. unfold attachment_path, save_attachment.
  destruct (is_attachment part); simpl; [|done].
  destruct (truthy (get_filename part)); simpl; [|done].
  run_world. run_M. simpl. rewrite Hdir. simpl.
  set (p := os_path_join dir (default "" (get_filename part))).
  destruct (fs_open_err E p) as [eo|] eqn:Hopen; simpl.
  { split_and!; try done. intros p' b [= <-]. congruence. }
  destruct (get_payload_decoded part) as [b|] eqn:Hpay; simpl.
  - destruct (fs_write_err E p) as [ew|] eqn:Hwrite; simpl.
    + split_and!; try done.
      * intros q Hq. apply lookup_insert_ne. congruence.
      * intros p' b' [= <-]. congruence.
    + split_and!; try done.
      * intros q Hq. rewrite !lookup_insert_ne by congruence. done.
      * intros p' b' [= <-] [= <-] _ _. apply lookup_insert_eq.
  - split_and!; try done.
    intros q Hq. apply lookup_insert_ne. congruence.
Qed.

Lemma save_parts_spec E sender dir parts : ∀ s,
  let r := for_each parts
             (λ part, if is_attachment part then save_attachment E part sender
                      else mret tt) s in
  attachments_dir (self s) = Some dir →
  r.1 = Returns tt
  ∧ self r.2 = self s
  ∧ seen (wld r.2) = seen (wld s)
  ∧ (∀ q, (∀ part, part ∈ parts → attachment_path dir part ≠ Some q) →
       fs_files (wld r.2) !! q = fs_files (wld s) !! q).
Proof.
  induction parts as [|part parts IH]; intros s r Hdir; subst r; simpl; [done|].
  unfold mbind, M_bind.
  destruct (save_part_spec E sender dir part s Hdir) as (Hr & Hself & Hseen & Hframe & _).
  destruct ((if is_attachment part then save_attachment E part sender else mret tt) s)
    as [[[]|e] s1]; simpl in *; [|done].
  destruct (IH s1) as (Hr' & Hself' & Hseen' & Hframe'); [by rewrite Hself|].
  split_and!; [done|congruence|congruence|].
  intros q Hq. rewrite Hframe', Hframe; [done| |].
  - apply Hq. by left.
  - intros part' Hin. apply Hq. by right.
Qed.

Lemma save_attachments_spec E sender dir msg l1 part l2 p b s :
  let r := save_attachments E msg sender s in
  attachments_dir (self s) = Some dir →
  is_multipart msg = true →
  walk msg = l1 ++ part :: l2 →
  attachment_path dir part = Some p →
  get_payload_decoded part = Some b →
  fs_open_err E p = None → fs_write_err E p = None →
  (∀ later, later ∈ l2 → attachment_path dir later ≠ Some p) →
  fs_files (wld r.2) !! p = Some b.
Proof.
  intros r Hdir Hmulti Hwalk Hpath Hpay Hopen Hwrite Hlater. subst r.
  unfold save_attachments. rewrite Hmulti, Hwalk, for_each_app.
  destruct (save_parts_spec E sender dir l1 s Hdir) as (Hr1 & Hself1 & _).
  destruct (for_each l1 _ s) as [[[]|e] s1]; simpl in *; [|done].
  unfold mbind, M_bind.
  assert (Hdir1 : attachments_dir (self s1) = Some dir) by by rewrite Hself1.
  destruct (save_part_spec E sender dir part s1 Hdir1) as (Hr2 & Hself2 & _ & _ & Hsaved).
  destruct ((if is_attachment part then save_attachment E part sender else mret tt) s1)
    as [[[]|e] s2]; simpl in *; [|done].
  assert (Hdir2 : attachments_dir (self s2) = Some dir) by by rewrite Hself2.
  destruct (save_parts_spec E sender dir l2 s2 Hdir2) as (_ & _ & _ & Hframe).
  rewrite Hframe by done. by apply Hsaved.
Qed.

Lemma save_attachments_frame E sender dir msg s :
  let r := save_attachments E msg sender s in
  attachments_dir (self s) = Some dir →
  r.1 = Returns tt
  ∧ self r.2 = self s
  ∧ seen (wld r.2) = seen (wld s)
  ∧ (∀ q, (∀ part, part ∈ walk msg → attachment_path dir part ≠ Some q) →
       fs_files (wld r.2) !! q = fs_files (wld s) !! q).
Proof.
  intros r Hdir. subst r. unfold save_attachments.
  destruct (is_multipart msg); [|done].
  by apply save_parts_spec.
Qed.

(** The same on the disk, where the file of a path is what
    [fs_realpath] makes of it. *)
Lemma save_part_disk E sender dir part s :
  let r := (if is_attachment part then save_attachment E part sender else mret tt) s in
  attachments_dir (self s) = Some dir →
  (∀ f, (∀ p, attachment_path dir part = Some p → fs_realpath E p ≠ f) →
     fs_disk (wld r.2) !! f = fs_disk (wld s) !! f)
  ∧ (∀ p b, attachment_path dir part = Some p →
       get_payload_decoded part = Some b →
       fs_open_err E p = None → fs_write_err E p = None →
       fs_disk (wld r.2) !! fs_realpath E p = Some b).
Proof.
  intros r Hdir. subst r. unfold attachment_path, save_attachment.
  destruct (is_attachment part); simpl; [|done].
  destruct (truthy (get_filename part)); simpl; [|done].
  run_world. run_M. simpl. rewrite Hdir. simpl.
  set (p := os_path_join dir (default "" (get_filename part))).
  destruct (fs_open_err E p) as [eo|] eqn:Hopen; simpl.
  { split; [done|]. intros p' b [= <-]. congruence. }
  destruct (get_payload_decoded part) as [b|] eqn:Hpay; simpl.
  - destruct (fs_write_err E p) as [ew|] eqn:Hwrite; simpl.
    + split.
      * intros f Hf. apply lookup_insert_ne. by apply Hf.
      * intros p' b' [= <-]. congruence.
    + split.
      * intros f Hf. rewrite !lookup_insert_ne by by apply Hf. done.
      * intros p' b' [= <-] [= <-] _ _. apply lookup_insert_eq.
  - split; [|done].
    intros f Hf. apply lookup_insert_ne. by apply Hf.
Qed.

Lemma save_parts_disk E sender dir parts : ∀ s,
  let r := for_each parts
             (λ part, if is_attachment part then save_attachment E part sender
                      else mret tt) s in
  attachments_dir (self s) = Some dir →
  ∀ f, (∀ part p, part ∈ parts → attachment_path dir part = Some p →
                  fs_realpath E p ≠ f) →
       fs_disk (wld r.2) !! f = fs_disk (wld s) !! f.
Proof.
  induction parts as [|part parts IH]; intros s r Hdir f Hf; subst r; simpl; [done|].
  unfold mbind, M_bind.
  destruct (save_part_spec E sender dir part s Hdir) as (Hr & Hself & _).
  destruct (save_part_disk E sender dir part s Hdir) as (Hframe & _).
  destruct ((if is_attachment part then save_attachment E part sender else mret tt) s)
    as [[[]|e] s1]; simpl in *; [|done].
  rewrite (IH s1); [|by rewrite Hself|].
  - apply Hframe. intros p. apply Hf. by left.
  - intros part' p Hin. apply Hf. by right.
Qed.

Lemma save_attachments_disk E sender dir msg l1 part l2 p b s :
  let r := save_attachments E msg sender s in
  attachments_dir (self s) = Some dir →
  is_multipart msg = true →
  walk msg = l1 ++ part :: l2 →
  attachment_path dir part = Some p →
  get_payload_decoded part = Some b →
  fs_open_err E p = None → fs_write_err E p = None →
  (∀ later q, later ∈ l2 → attachment_path dir later = Some q →
              fs_realpath E q ≠ fs_realpath E p) →
  fs_disk (wld r.2) !! fs_realpath E p = Some b.
Proof.
  intros r Hdir Hmulti Hwalk Hpath Hpay Hopen Hwrite Hlater. subst r.
  unfold save_attachments. rewrite Hmulti, Hwalk, for_each_app.
  destruct (save_parts_spec E sender dir l1 s Hdir) as (Hr1 & Hself1 & _).
  destruct (for_each l1 _ s) as [[[]|e] s1]; simpl in *; [|done].
  unfold mbind, M_bind.
  assert (Hdir1 : attachments_dir (self s1) = Some dir) by by rewrite Hself1.
  destruct (save_part_spec E sender dir part s1 Hdir1) as (Hr2 & Hself2 & _).
  destruct (save_part_disk E sender dir part s1 Hdir1) as (_ & Hsaved).
  destruct ((if is_attachment part then save_attachment E part sender else mret tt) s1)
    as [[[]|e] s2]; simpl in *; [|done].
  assert (Hdir2 : attachments_dir (self s2) = Some dir) by by rewrite Hself2.
  rewrite (save_parts_disk E sender dir l2 s2 Hdir2) by done. by apply Hsaved.
Qed.

Lemma save_attachments_disk_frame E sender dir msg s f :
  let r := save_attachments E msg sender s in
  attachments_dir (self s) = Some dir →
  (∀ part p, part ∈ walk msg → attachment_path dir part = Some p →
             fs_realpath E p ≠ f) →
  fs_disk (wld r.2) !! f = fs_disk (wld s) !! f.
Proof.
  intros r Hdir Hf. subst r. unfold save_attachments.
  destruct (is_multipart msg); [|done].
  exact (save_parts_disk E sender dir (walk msg) s Hdir f Hf).
Qed.

(** What [process_email] comes to on a fetched message of a listed
    sender: the attachments are saved, then the STORE is sent. *)
Lemma process_email_listed E h id msg dir s :
  mail (self s) = Some h →
  attachments_dir (self s) = Some dir →
  srv_fetch E id = inr ("OK", Some msg) →
  in_senders (get_from msg) (senders_dict (self s)) = true →
  let s1 := fetched_state h id s in
  let s2 := (save_attachments E msg (get_from msg) s1).2 in
  let w3 := emit (ImapStore h id "+FLAGS" "\Seen") (wld s2) in
  process_email E id s =
    (Returns tt,
     match srv_store E id with
     | None =>
         State (self s2)
           (World (fs_dirs w3) (fs_files w3) (fs_disk w3) ({[id]} ∪ seen w3) (today w3)
                  (n_open w3) (n_select w3) (trace w3))
     | Some e => State (self s2) (emit (Log ERROR (ProcessingError id e)) w3)
     end).
Proof.
  intros Hmail Hdir Hfetch Hin s1 s2 w3.
  rewrite process_email_catches. unfold process_email_try, process_fetched.
  run_world. run_M. simpl. rewrite Hmail, Hfetch. simpl.
  rewrite (in_senders_is_str msg _ Hin). simpl. rewrite Hin.
  change (State (self s) _) with s1.
  destruct (save_attachments_frame E (get_from msg) dir msg s1 Hdir) as (Hr & Hself & _).
  subst w3 s2.
  destruct (save_attachments E msg (get_from msg) s1) as [[[]|e] s2]; simpl in *; [|done].
  rewrite Hself. simpl. rewrite Hmail.
  destruct (srv_store E id); simpl; by rewrite ?Hself.
Qed.

Lemma save_attachments_quiet E msg sender :
  preserves (extends (λ e, is_message_call e = false)) (save_attachments E msg sender).
Proof. frame_extends done. Qed.

(** C5, as the code has it: for a fetched multipart message of a listed
    sender, an attachment part with a file name leaves its decoded
    payload in the file [attachments_dir/filename] when that file can be
    opened and written and no later attachment of the message goes to
    the same file, under this or another spelling of its path; a file
    that no attachment goes to does not change.  Between the fetch and
    the STORE of the seen flag there is no call on the mailbox: the
    STORE comes after the attachments, whatever became of their writes,
    and nothing follows it but the error line of a STORE that failed.
    The message has its seen flag at the end. *)
Theorem process_email_saves_attachments E h id msg dir s :
  let s' := (process_email E id s).2 in
  mail (self s) = Some h →
  attachments_dir (self s) = Some dir →
  srv_fetch E id = inr ("OK", Some msg) →
  in_senders (get_from msg) (senders_dict (self s)) = true →
  is_multipart msg = true →
  (∀ l1 part l2 p b,
     walk msg = l1 ++ part :: l2 →
     attachment_path dir part = Some p →
     get_payload_decoded part = Some b →
     fs_open_err E p = None → fs_write_err E p = None →
     (∀ later q, later ∈ l2 → attachment_path dir later = Some q →
                 fs_realpath E q ≠ fs_realpath E p) →
     fs_disk (wld s') !! fs_realpath E p = Some b)
  ∧ (∀ f, (∀ part p, part ∈ walk msg → attachment_path dir part = Some p →
                     fs_realpath E p ≠ f) →
       fs_disk (wld s') !! f = fs_disk (wld s) !! f)
  ∧ (∃ t, trace (wld s') =
            trace (wld s)
              ++ ImapFetch h id "(RFC822)" :: t
              ++ ImapStore h id "+FLAGS" "\Seen"
                 :: match srv_store E id with
                    | None => []
                    | Some e => [Log ERROR (ProcessingError id e)]
                    end
          ∧ Forall (λ e, is_message_call e = false) t)
  ∧ id ∈ seen (wld s').
Proof.
  intros s' Hmail Hdir Hfetch Hin Hmulti. subst s'.
  rewrite (process_email_listed E h id msg dir s Hmail Hdir Hfetch Hin).
  set (s1 := fetched_state h id s).
  assert (Hdir1 : attachments_dir (self s1) = Some dir) by done.
  destruct (save_attachments_frame E (get_from msg) dir msg s1 Hdir1)
    as (_ & _ & Hseen & _).
  destruct (save_attachments_quiet E msg (get_from msg) s1) as (t & Ht & Hq).
  split_and!.
  - intros l1 part l2 p b Hwalk Hpath Hpay Hopen Hwrite Hlater.
    pose proof (save_attachments_disk E (get_from msg) dir msg l1 part l2 p b s1
                  Hdir1 Hmulti Hwalk Hpath Hpay Hopen Hwrite Hlater) as Hsaved.
    by destruct (srv_store E id).
  - intros f Hf.
    pose proof (save_attachments_disk_frame E (get_from msg) dir msg s1 f Hdir1 Hf)
      as Hframe.
    by destruct (srv_store E id).
  - exists t. split; [|done].
    destruct (srv_store E id); simpl; rewrite Ht; simpl; by rewrite <- !app_assoc.
  - destruct (srv_store E id); simpl; rewrite ?Hseen; simpl;
      rewrite ?elem_of_union, elem_of_singleton; auto.
Qed.

(** ** What escapes an account's run *)




Section Contained.
Variable E : env.
Hypothesis Hopen : ∀ k e, srv_open E k = inl e → is_IMAP4_error e = true.
Hypothesis Hlogin : ∀ h e, srv_login E h = Some e → is_IMAP4_error e = true.
Hypothesis Hselect : ∀ k e, srv_select E k = Some e → is_IMAP4_error e = true.
Hypothesis Hsearch : ∀ k e, srv_search E k = inl e → is_IMAP4_error e = true.
Hypothesis Hdata : ∀ k, srv_search E k ≠ inr None.
Hypothesis Hlogout : ∀ h, srv_logout E h = None.






End Contained.


(** ** An account whose connection fails *)

(** C1, as the code has it: when [connect] has used up its attempts, the
    account's run still returns; it holds no connection, has logged the
    failure, and has made no call on the mailbox, marked no message and
    written no file.  The output directory of the day is resolved all
    the same: when it is not there, [os.makedirs] makes its missing
    parents and then the directory itself, and the parents stay when
    the directory itself cannot be made. *)
Theorem run_account_connection_failed E a s :
  let dir := os_path_join (acc_base_dir a) (today (wld s)) in
  let r := run_account E a s in
  (∀ i, i < 3 → fails_with_imap_error E (n_open (wld s) + i) = true) →
  r.1 = Returns tt
  ∧ mail (self r.2) = None
  ∧ seen (wld r.2) = seen (wld s)
  ∧ fs_files (wld r.2) = fs_files (wld s)
  ∧ fs_disk (wld r.2) = fs_disk (wld s)
  ∧ (∃ t, trace (wld r.2) = trace (wld s) ++ t
          ∧ Forall (λ e, is_message_call e = false) t
          ∧ Log ERROR (ConnectGaveUp 3) ∈ t)
  ∧ fs_dirs (wld r.2) =
      (if bool_decide (dir ∈ fs_dirs (wld s)) then fs_dirs (wld s)
       else match fs_makedirs_err E dir with
            | None => {[dir]} ∪ (fs_makedirs_parents E dir ∪ fs_dirs (wld s))
            | Some _ => fs_makedirs_parents E dir ∪ fs_dirs (wld s)
            end).
Proof.
  intros dir r Hfail. subst dir.
  assert (Hr : r = run_account E a s) by done. clearbody r.
  unfold run_account, new_downloader in Hr.
  unfold mbind at 1, M_bind at 1, modify at 1 in Hr.
  set (s0 := State (Downloader (acc_email_user a) (acc_email_pass a) (acc_base_dir a)
                      (acc_senders_dict a) None None) (wld s)) in Hr.
  unfold mbind at 1, M_bind at 1 in Hr.
  pose proof (connect_keeps_world E s0) as Hworld.
  pose proof (connect_keeps_config E s0) as Hconfig.
  pose proof (connect_keeps_disk E s0) as Hdisk.
  pose proof (connect_extends E s0) as Hquiet.
  destruct (connect_loop_exhausts E 3 0 s0) as (s1 & t & Hrun & Hmail & Ht & _ & _);
    [done|exact Hfail|].
  fold (connect E) in Hrun. rewrite Hrun in *. clear Hrun.
  simpl in Hworld, Hconfig, Hdisk.
  unfold keeps in Hworld, Hconfig, Hdisk. simpl in Hworld, Hconfig, Hdisk, Ht.
  injection Hworld as Hd Hf Hs Htd Hns. injection Hconfig as Hu Hp Hb Hsd Had.
  assert (Hq : Forall (λ e, is_message_call e = false) t).
  { destruct Hquiet as (t0 & Heq & Hall). simpl in Heq.
    rewrite Ht in Heq. apply app_inv_head in Heq. subst t0.
    apply Forall_app in Hall as [Hall _].
    eapply Forall_impl; [exact Hall|]. by intros e [_ He]. }
  clear Hquiet. unfold MAX_RETRIES in Ht.
  destruct s1 as [[u p b sd m ad] [d f dk sn td no ns tr]]. simpl in *. subst u p b sd m ad d f dk sn td ns tr.
  unfold create_attachments_directory, download_attachments, logout in Hr.
  run_world. run_M. simpl in Hr.
  case_bool_decide as Hdir; simpl in Hr;
    [|destruct (fs_makedirs_err E _) as [e|]; simpl in Hr];
    repeat (case_bool_decide; simpl in Hr); subst r; simpl;
    (split_and!; try done;
     eexists; (split; [by rewrite <- ?app_assoc|]); split;
     [apply Forall_app; split; [done|by repeat constructor]|set_solver]).
Qed.

(** * The properties on the sample runs *)

(** C1, counterexample: every connection is refused, and the directory
    of the day, which was not there, is there after the run. *)
Lemma stated_connection_failed_fails :
  ¬ stated_connection_failed ex_down ex_account ex_start.
Proof.
  intros Hstated. destruct Hstated as (_ & _ & Hdirs & _); [done|].
  apply (f_equal (λ d : gset string, bool_decide ("base/2024-01-02" ∈ d))) in Hdirs.
  vm_compute in Hdirs. discriminate.
Qed.

Lemma run_account_connection_failed_witness :
  (∀ i, i < 3 → fails_with_imap_error ex_down (n_open (wld ex_start) + i) = true)
  ∧ mail (self (run_account ex_down ex_account ex_start).2) = None
  ∧ seen (wld (run_account ex_down ex_account ex_start).2) = seen (wld ex_start)
  ∧ fs_files (wld (run_account ex_down ex_account ex_start).2) = fs_files (wld ex_start)
  ∧ "base" ∈ fs_dirs (wld (run_account ex_down ex_account ex_start).2)
  ∧ "base/2024-01-02" ∈ fs_dirs (wld (run_account ex_down ex_account ex_start).2).
Proof.
  assert (Hdown : ∀ i, i < 3 →
            fails_with_imap_error ex_down (n_open (wld ex_start) + i) = true) by done.
  split; [exact Hdown|].
  destruct (run_account_connection_failed ex_down ex_account ex_start Hdown)
    as (_ & Hmail & Hseen & Hfiles & _ & _ & Hdirs).
  split_and!; [exact Hmail|exact Hseen|exact Hfiles| |];
    rewrite Hdirs; vm_compute; reflexivity.
Defined.



(** C3, counterexample: the connection has gone when the LOGOUT is sent,
    and [logout] raises what [imaplib] raised. *)
Lemma stated_close_never_raises_fails :
  ¬ stated_close_never_raises ex_logout_fails ex_connected.
Proof. intros [Hreturns _]. vm_compute in Hreturns. discriminate. Qed.

(** C5, counterexample: a message of a listed sender with two
    attachments named [r.pdf]; nothing fails, the file holds the second
    one, and the payload of the first is in no file. *)
Lemma stated_attachments_saved_fails :
  mail (self ex_connected) = Some 7
  ∧ srv_fetch (ex_serving ex_twice) "1" = inr ("OK", Some ex_twice)
  ∧ in_senders (get_from ex_twice) (senders_dict (self ex_connected)) = true
  ∧ is_multipart ex_twice = true
  ∧ ¬ stated_attachments_saved (ex_serving ex_twice) "1" ex_twice
        "base/2024-01-02" ex_connected.
Proof.
  split_and!; [done|done|by vm_compute|done|].
  intros [Hsaved _].
  assert (Hfile :
    fs_disk (wld (process_email (ex_serving ex_twice) "1" ex_connected).2)
      !! fs_realpath (ex_serving ex_twice) (os_path_join "base/2024-01-02" "r.pdf")
    = Some [Byte.x01]).
  { apply (Hsaved (ex_attachment "r.pdf" [Byte.x01])); [|done..].
    simpl. set_solver. }
  vm_compute in Hfile. discriminate.
Qed.

(** Two spellings of one file: both attachments are written without an
    error, and the disk has the one file, with the payload of the
    second. *)
Lemma aliased_attachments_one_file :
  let s' := (process_email ex_serving_aliased "1" ex_connected).2 in
  fs_disk (wld s') !! "base/2024-01-02/r.pdf" = Some [Byte.x02]
  ∧ fs_disk (wld s') !! "base/2024-01-02/./r.pdf" = None
  ∧ Forall (λ e, ∀ m, e ≠ Log ERROR m) (trace (wld s')).
Proof.
  split_and!; [vm_compute; reflexivity|vm_compute; reflexivity|].
  vm_compute. repeat constructor; by intros m.
Qed.

Lemma process_email_saves_attachments_witness :
  mail (self ex_connected) = Some 7
  ∧ attachments_dir (self ex_connected) = Some "base/2024-01-02"
  ∧ srv_fetch (ex_serving ex_report) "1" = inr ("OK", Some ex_report)
  ∧ in_senders (get_from ex_report) (senders_dict (self ex_connected)) = true
  ∧ is_multipart ex_report = true
  ∧ fs_disk (wld (process_email (ex_serving ex_report) "1" ex_connected).2)
      !! "base/2024-01-02/b.pdf" = Some [Byte.x02]
  ∧ "1" ∈ seen (wld (process_email (ex_serving ex_report) "1" ex_connected).2).
Proof.
  assert (Hin : in_senders (get_from ex_report) (senders_dict (self ex_connected)) = true)
    by (vm_compute; reflexivity).
  split_and!; [reflexivity|reflexivity|reflexivity|exact Hin|reflexivity| |].
  - apply (proj1 (process_email_saves_attachments (ex_serving ex_report) 7 "1"
                    ex_report "base/2024-01-02" ex_connected
                    eq_refl eq_refl eq_refl Hin eq_refl)
             [ex_report; Leaf (Headers None "text" None None) [Byte.x68; Byte.x69];
              ex_attachment "a.pdf" [Byte.x01]]
             (ex_attachment "b.pdf" [Byte.x02]) []);
      [reflexivity|vm_compute; reflexivity|reflexivity|reflexivity|reflexivity|].
    intros later q Hlater. by apply elem_of_nil in Hlater.
  - apply (process_email_saves_attachments (ex_serving ex_report) 7 "1"
             ex_report "base/2024-01-02" ex_connected
             eq_refl eq_refl eq_refl Hin eq_refl).
Defined.

(** C4, counterexample: the first connection finds no network, the
    second would be let in; [connect] does not make it, and raises the
    [OSError] of the first. *)
Lemma stated_connect_retry_fails :
  ¬ stated_connect_retry ex_no_network ex_start 1 7.
Proof.
  intros Hstated. destruct Hstated as [Hreturns _].
  - intros [|i] Hi; [reflexivity|lia].
  - reflexivity.
  - vm_compute in Hreturns. discriminate.
Qed.

Lemma connect_retry_witness :
  (∀ i, i < 2 → fails_with_imap_error (ex_refusing 2) (n_open (wld ex_start) + i) = true)
  ∧ attempt_result (ex_refusing 2) (n_open (wld ex_start) + 2) = inr 7
  ∧ mail (self (connect (ex_refusing 2) ex_start).2) = Some 7
  ∧ (∀ i, fails_with_imap_error ex_down (n_open (wld ex_start) + i) = true)
  ∧ mail (self (connect ex_down ex_start).2) = None
  ∧ attempt_result ex_no_network (n_open (wld ex_start) + 0)
      = inl (OtherException "OSError")
  ∧ (connect ex_no_network ex_start).1 = Raises (OtherException "OSError").
Proof.
  assert (Hrefused : ∀ i, i < 2 →
            fails_with_imap_error (ex_refusing 2) (n_open (wld ex_start) + i) = true).
  { intros [|[|i]] Hi; [reflexivity|reflexivity|lia]. }
  assert (Hdown : ∀ i, fails_with_imap_error ex_down (n_open (wld ex_start) + i) = true)
    by (intros i; reflexivity).
  assert (Hnone : ∀ i, i < 0 →
            fails_with_imap_error ex_no_network (n_open (wld ex_start) + i) = true)
    by (intros i Hi; lia).
  split_and!; [exact Hrefused|reflexivity| |exact Hdown| |reflexivity|].
  - apply (proj1 (connect_retry (ex_refusing 2) ex_start) 2 7 Hrefused eq_refl). lia.
  - apply (proj1 (proj2 (connect_retry ex_down ex_start)) Hdown).
  - apply (proj2 (proj2 (connect_retry ex_no_network ex_start)) 0
             (OtherException "OSError") ltac:(lia) Hnone eq_refl eq_refl).
Defined.

(** C6, counterexample: the message of a sender who is not listed is
    fetched, and has its seen flag after it; and for a sender whose
    display name has a raw 8-bit byte, the line logged is an error
    line. *)
Lemma stated_unlisted_untouched_fails :
  ¬ stated_unlisted_untouched (ex_serving ex_stranger) "1" ex_connected
  ∧ ¬ stated_unlisted_untouched (ex_serving ex_eight_bit) "1" ex_connected.
Proof.
  split.
  - intros Hstated. destruct Hstated as (_ & [Hseen _] & _).
    + intros st msg a [= <- <-] [= <-]. vm_compute. reflexivity.
    + assert (Hmarked :
        "1" ∈ seen (wld (process_email (ex_serving ex_stranger) "1" ex_connected).2))
        by (vm_compute; reflexivity).
      specialize (Hseen Hmarked). vm_compute in Hseen. discriminate.
  - intros Hstated. destruct Hstated as (_ & _ & t & Ht & Hall).
    + intros st msg a [= <- <-] Hfrom. vm_compute in Hfrom. discriminate.
    + assert (Htrace :
        trace (wld (process_email (ex_serving ex_eight_bit) "1" ex_connected).2)
        = trace (wld ex_connected)
          ++ [ImapFetch 7 "1" "(RFC822)";
              Log ERROR (ProcessingError "1" (OtherException "TypeError"))])
        by (vm_compute; reflexivity).
      rewrite Htrace in Ht. apply app_inv_head in Ht. subst t.
      inversion Hall as [|? ? _ Hrest]. inversion Hrest as [|? ? Herr _].
      specialize (Herr _ _ eq_refl). discriminate.
Qed.

Lemma process_email_unlisted_sender_witness :
  (∀ st msg a, srv_fetch (ex_serving ex_eight_bit) "1" = inr (st, Some msg) →
     get_from msg = Some a → senders_dict (self ex_connected) !! a = None)
  ∧ fs_files (wld (process_email (ex_serving ex_eight_bit) "1" ex_connected).2)
      = fs_files (wld ex_connected)
  ∧ fs_dirs (wld (process_email (ex_serving ex_eight_bit) "1" ex_connected).2)
      = fs_dirs (wld ex_connected)
  ∧ trace (wld (process_email (ex_serving ex_eight_bit) "1" ex_connected).2)
      = trace (wld ex_connected)
        ++ [ImapFetch 7 "1" "(RFC822)";
            Log ERROR (ProcessingError "1" (OtherException "TypeError"))].
Proof.
  assert (Hout : ∀ st msg a,
            srv_fetch (ex_serving ex_eight_bit) "1" = inr (st, Some msg) →
            get_from msg = Some a → senders_dict (self ex_connected) !! a = None).
  { intros st msg a [= <- <-] Hfrom. vm_compute in Hfrom. discriminate. }
  destruct (process_email_unlisted_sender (ex_serving ex_eight_bit) "1" ex_connected Hout)
    as (_ & Hfiles & _ & Hdirs & _ & _ & Htrace).
  split_and!; [exact Hout|exact Hfiles|exact Hdirs|].
  exact (Htrace 7 ex_eight_bit eq_refl eq_refl).
Defined.

Lemma process_email_isolated_witness :
  mail (self ex_connected) = Some 7
  ∧ (for_each ["1"; "2"] (process_email ex_fetch_fails) ex_connected).1 = Returns tt
  ∧ ∃ t, trace (wld (for_each ["1"; "2"] (process_email ex_fetch_fails) ex_connected).2)
           = trace (wld ex_connected) ++ t
         ∧ fetches t = ["1"; "2"].
Proof.
  split; [reflexivity|].
  apply (proj2 (proj2 (process_email_isolated ex_fetch_fails)) 7 ["1"; "2"] ex_connected).
  reflexivity.
Defined.

Lemma create_attachments_directory_idempotent_witness :
  os_path_join (base_dir (self ex_connected)) (today (wld ex_connected))
    ∈ fs_dirs (wld ex_connected)
  ∧ attachments_dir
      (self (create_attachments_directory (ex_serving ex_report)
               (create_attachments_directory (ex_serving ex_report) ex_connected).2).2)
    = Some "base/2024-01-02".
Proof.
  assert (Hdir : os_path_join (base_dir (self ex_connected)) (today (wld ex_connected))
                   ∈ fs_dirs (wld ex_connected)).
  { vm_compute. reflexivity. }
  split; [exact Hdir|].
  apply (create_attachments_directory_idempotent (ex_serving ex_report) ex_connected Hdir).
Defined.

Lemma process_email_display_name_witness :
  mail (self ex_connected_main) = Some 7
  ∧ srv_fetch (ex_serving ex_named) "1" = inr ("OK", Some ex_named)
  ∧ h_from (msg_headers ex_named)
      = Some ("Example Sender 1" +:+ " <" +:+ "example1@example.com" +:+ ">")
  ∧ map_Forall (λ k _, has_char "<" k = false) (senders_dict (self ex_connected_main))
  ∧ senders_dict (self ex_connected_main) !! "example1@example.com"
      = Some "Example Sender 1"
  ∧ in_senders (get_from ex_named) (senders_dict (self ex_connected_main)) = false
  ∧ trace (wld (process_email (ex_serving ex_named) "1" ex_connected_main).2)
      = trace (wld ex_connected_main)
        ++ [ImapFetch 7 "1" "(RFC822)";
            Log INFO (SenderNotListed (Some "Example Sender 1 <example1@example.com>"))].
Proof.
  assert (Hbare : map_Forall (λ k _, has_char "<" k = false)
                    (senders_dict (self ex_connected_main))).
  { apply map_Forall_insert_2; [reflexivity|].
    apply map_Forall_insert_2; [reflexivity|]. apply map_Forall_empty. }
  assert (Haddr : senders_dict (self ex_connected_main) !! "example1@example.com"
                  = Some "Example Sender 1")
    by (vm_compute; reflexivity).
  destruct (process_email_display_name (ex_serving ex_named) 7 "1" "Example Sender 1"
              "example1@example.com" "Example Sender 1" ex_named ex_connected_main
              eq_refl eq_refl eq_refl Hbare Haddr)
    as (_ & _ & Hout & _ & _ & _ & _ & Htrace).
  split_and!; [reflexivity|reflexivity|reflexivity|exact Hbare|exact Haddr|exact Hout|].
  exact Htrace.
Defined.

(** * Further properties of the methods *)

(** ** [create_attachments_directory] *)

(** After [create_attachments_directory], [attachments_dir] either
    names the directory of the day, which is there, or is [None]: then
    the directory was not there, [os.makedirs] has failed and the
    failure is the last line of the log.  Nothing is raised, no file and
    no flag changes and the connection handle stays.  A directory that
    is there leaves the disk as it is; for one that is not,
    [os.makedirs] makes its missing parents and then the directory, and
    the parents stay when the directory itself cannot be made. *)
Theorem create_attachments_directory_outcome E s :
  let dir := os_path_join (base_dir (self s)) (today (wld s)) in
  let r := create_attachments_directory E s in
  r.1 = Returns tt
  ∧ ((attachments_dir (self r.2) = Some dir ∧ dir ∈ fs_dirs (wld r.2))
     ∨ (attachments_dir (self r.2) = None ∧ (dir ∉ fs_dirs (wld s))
        ∧ ∃ e, fs_makedirs_err E dir = Some e
               ∧ last (trace (wld r.2)) = Some (Log ERROR (DirectoryError dir e))))
  ∧ fs_files (wld r.2) = fs_files (wld s)
  ∧ fs_disk (wld r.2) = fs_disk (wld s)
  ∧ seen (wld r.2) = seen (wld s)
  ∧ fs_dirs (wld r.2) =
      (if bool_decide (dir ∈ fs_dirs (wld s)) then fs_dirs (wld s)
       else match fs_makedirs_err E dir with
            | None => {[dir]} ∪ (fs_makedirs_parents E dir ∪ fs_dirs (wld s))
            | Some _ => fs_makedirs_parents E dir ∪ fs_dirs (wld s)
            end)
  ∧ mail (self r.2) = mail (self s).
Proof.
  intros dir r. subst r dir. unfold create_attachments_directory.
  run_world. run_M. simpl.
  case_bool_decide as Hdir; simpl.
  - split_and!; try done. by left.
  - destruct (fs_makedirs_err E _) as [e|] eqn:Herr; simpl.
    + split_and!; try done.
      right. split_and!; [done|done|]. exists e. split; [done|].
      apply last_snoc.
    + split_and!; try done. left. split; [done|].
      apply elem_of_union_l. by apply elem_of_singleton.
Qed.

(** ** [connect] *)

(** An exception of the constructor or of the login that is no
    [imaplib.IMAP4.error] ends [connect] at once: it is raised after one
    attempt, with no wait and no log line.  When it was the login that
    raised, [self.mail] holds the handle that never logged in. *)
Theorem connect_unexpected_exception E s e :
  let r := connect E s in
  attempt_result E (n_open (wld s)) = inl e →
  is_IMAP4_error e = false →
  r.1 = Raises e
  ∧ (∃ t, trace (wld r.2) = trace (wld s) ++ t
          ∧ attempts t = 1 ∧ sleeps t = []
          ∧ Forall (λ ev, is_log ev = false) t)
  ∧ mail (self r.2) =
      match srv_open E (n_open (wld s)) with
      | inr h => Some h
      | inl _ => mail (self s)
      end.
Proof.
  intros r Hres Himap. subst r. unfold connect. rewrite while_retries_step.
  change (0 <? MAX_RETRIES) with true. cbv iota.
  unfold attempt_result in Hres. unfold connect_attempt. run_world. run_M. simpl.
  destruct (srv_open E (n_open (wld s))) as [e1|h]; simpl.
  - injection Hres as ->. rewrite Himap. simpl. split_and!; [done| |done].
    eexists [_].
    split_and!;
      first [reflexivity | simpl; rewrite <- ?app_assoc; reflexivity
            | by repeat constructor].
  - destruct (srv_login E h) as [e1|]; [|done]. injection Hres as ->.
    simpl. rewrite Himap. simpl. split_and!; [done| |done].
    eexists [_; _].
    split_and!;
      first [reflexivity | simpl; rewrite <- ?app_assoc; reflexivity
            | by repeat constructor].
Qed.

(** Whatever the server answers, [connect] changes nothing on the disk,
    marks no message, makes no call on the mailbox, and leaves every
    field of the downloader but [mail] as it was. *)
Theorem connect_frame E s :
  let r := connect E s in
  fs_dirs (wld r.2) = fs_dirs (wld s)
  ∧ fs_files (wld r.2) = fs_files (wld s)
  ∧ seen (wld r.2) = seen (wld s)
  ∧ email_user (self r.2) = email_user (self s)
  ∧ email_pass (self r.2) = email_pass (self s)
  ∧ base_dir (self r.2) = base_dir (self s)
  ∧ senders_dict (self r.2) = senders_dict (self s)
  ∧ attachments_dir (self r.2) = attachments_dir (self s)
  ∧ ∃ t, trace (wld r.2) = trace (wld s) ++ t
         ∧ Forall (λ e, is_fs_write e = false ∧ is_message_call e = false) t.
Proof.
  intros r. subst r.
  pose proof (connect_keeps_world E s) as Hworld.
  pose proof (connect_keeps_config E s) as Hconfig.
  pose proof (connect_extends E s) as Hquiet.
  unfold keeps in Hworld, Hconfig.
  injection Hworld as Hd Hf Hs _ _. injection Hconfig as Hu Hp Hb Hsd Had.
  by split_and!.
Qed.

(** ** [process_email] *)

(** A fetch that does not deliver a message with status OK is not tried
    again: the message is fetched once, one error line is logged,
    nothing is raised, and the message stays unmarked; no file, no
    directory and no field of the downloader changes. *)
Theorem process_email_fetch_failed E h id s :
  let r := process_email E id s in
  mail (self s) = Some h →
  (∀ msg, srv_fetch E id ≠ inr ("OK", Some msg)) →
  r.1 = Returns tt
  ∧ self r.2 = self s
  ∧ fs_files (wld r.2) = fs_files (wld s)
  ∧ fs_dirs (wld r.2) = fs_dirs (wld s)
  ∧ seen (wld r.2) = seen (wld s)
  ∧ ∃ m, trace (wld r.2) = trace (wld s) ++ [ImapFetch h id "(RFC822)"; Log ERROR m]
         ∧ (m = FetchFailed id ∨ ∃ e, m = ProcessingError id e).
Proof.
  intros r Hmail Hfetch. subst r.
  unfold process_email, process_email_try, process_fetched. run_world. run_M. simpl.
  rewrite Hmail.
  destruct (srv_fetch E id) as [e|[st [msg|]]] eqn:Hf; simpl.
  - split_and!; try done. eexists. split; [trace_done|]. right. by eexists.
  - destruct (decide (st = "OK")) as [->|Hst]; [by destruct (Hfetch msg)|].
    rewrite fetch_sets_seen_rfc822, !bool_decide_eq_false_2 by done. simpl.
    rewrite bool_decide_eq_true_2 by done. simpl.
    split_and!; try done. eexists. split; [trace_done|]. by left.
  - rewrite fetch_sets_seen_rfc822, andb_false_r. simpl.
    case_bool_decide as Hst; simpl.
    + split_and!; try done. eexists. split; [trace_done|]. by left.
    + split_and!; try done. eexists. split; [trace_done|]. right. by eexists.
Qed.

(** A message of a listed sender that is not multipart has nothing
    saved, even when it has a disposition and a file name itself: the
    STORE follows the fetch at once, and the message is marked seen when
    the STORE goes through. *)
Theorem process_email_flat_message E h id msg s :
  let r := process_email E id s in
  mail (self s) = Some h →
  srv_fetch E id = inr ("OK", Some msg) →
  in_senders (get_from msg) (senders_dict (self s)) = true →
  is_multipart msg = false →
  r.1 = Returns tt
  ∧ fs_files (wld r.2) = fs_files (wld s)
  ∧ fs_dirs (wld r.2) = fs_dirs (wld s)
  ∧ trace (wld r.2) =
      trace (wld s)
        ++ ImapFetch h id "(RFC822)" :: ImapStore h id "+FLAGS" "\Seen"
           :: match srv_store E id with
              | None => []
              | Some e => [Log ERROR (ProcessingError id e)]
              end
  ∧ (srv_store E id = None → seen (wld r.2) = {[id]} ∪ seen (wld s)).
Proof.
  intros r Hmail Hfetch Hin Hflat. subst r.
  unfold process_email, process_email_try, process_fetched, save_attachments.
  run_world. run_M. simpl.
  rewrite Hmail, Hfetch. simpl.
  rewrite (in_senders_is_str msg _ Hin). simpl. rewrite Hin, Hflat. simpl. rewrite Hmail.
  destruct (srv_store E id) as [e|]; simpl;
    (split_and!; try done; try trace_done).
  intros _. apply leibniz_equiv. rewrite (assoc_L (∪)). by rewrite union_idemp_L.
Qed.

(** The loop of [save_attachments] when [attachments_dir] is [None]:
    the first part to save raises the [TypeError] of [os.path.join]. *)
Lemma save_parts_no_directory E sender parts s :
  attachments_dir (self s) = None →
  for_each parts
    (λ part, if is_attachment part then save_attachment E part sender else mret tt) s
  = if existsb (λ part, is_attachment part && truthy (get_filename part)) parts
    then (Raises (OtherException "TypeError"), s)
    else (Returns tt, s).
Proof.
  intros Hdir. induction parts as [|part parts IH]; simpl; [done|].
  unfold mbind, M_bind, save_attachment.
  destruct (is_attachment part); simpl; [|exact IH].
  destruct (truthy (get_filename part)); simpl; [|exact IH].
  run_world. run_M. simpl. by rewrite Hdir.
Qed.

(** On a downloader whose directory is not resolved, a multipart message
    of a listed sender that has an attachment with a file name is given
    up at the first such part: the [TypeError] is logged, no file is
    written and no STORE is sent.  The message has its seen flag all the
    same, by the fetch that delivered it. *)
Theorem process_email_without_directory E h id msg s :
  mail (self s) = Some h →
  attachments_dir (self s) = None →
  srv_fetch E id = inr ("OK", Some msg) →
  in_senders (get_from msg) (senders_dict (self s)) = true →
  is_multipart msg = true →
  (∃ part, part ∈ walk msg ∧ is_attachment part = true
           ∧ truthy (get_filename part) = true) →
  process_email E id s =
    (Returns tt,
     State (self s)
       (World (fs_dirs (wld s)) (fs_files (wld s)) (fs_disk (wld s)) ({[id]} ∪ seen (wld s))
              (today (wld s)) (n_open (wld s)) (n_select (wld s))
              (trace (wld s)
                 ++ [ImapFetch h id "(RFC822)";
                     Log ERROR (ProcessingError id (OtherException "TypeError"))]))).
Proof.
  intros Hmail Hdir Hfetch Hin Hmulti (part & Hpart & Hatt & Hname).
  rewrite process_email_catches.
  unfold process_email_try, process_fetched, save_attachments.
  run_world. run_M. simpl.
  rewrite Hmail, Hfetch. simpl.
  rewrite (in_senders_is_str msg _ Hin). simpl. rewrite Hin, Hmulti.
  rewrite save_parts_no_directory by done.
  assert (Hex : existsb (λ part, is_attachment part && truthy (get_filename part))
                  (walk msg) = true).
  { apply existsb_exists. exists part. split; [by apply list_elem_of_In|].
    by rewrite Hatt, Hname. }
  rewrite Hex. simpl. f_equal. f_equal. f_equal. trace_done.
Qed.

Lemma extends_elem_of Q e s s' :
  extends Q s s' → e ∈ trace (wld s) → e ∈ trace (wld s').
Proof. intros (t & -> & _) He. set_solver. Qed.

Lemma save_parts_extends E sender parts :
  preserves (extends (λ _, True))
    (for_each parts
       (λ part, if is_attachment part then save_attachment E part sender else mret tt)).
Proof. frame_extends done. Qed.

(** An attachment part whose payload is a list of parts: the file is
    opened, and the write of [None] raises. *)
Lemma save_part_undecodable E sender dir part p s :
  let r := (if is_attachment part then save_attachment E part sender else mret tt) s in
  attachments_dir (self s) = Some dir →
  attachment_path dir part = Some p →
  get_payload_decoded part = None →
  fs_open_err E p = None →
  fs_files (wld r.2) !! p = Some []
  ∧ Log ERROR (SaveError (default "" (get_filename part)) (OtherException "TypeError"))
      ∈ trace (wld r.2).
Proof.
  intros r Hdir Hpath Hpay Hopen. subst r. revert Hpath.
  unfold attachment_path, save_attachment.
  destruct (is_attachment part); simpl; [|done].
  destruct (truthy (get_filename part)); simpl; [|done].
  intros [= <-]. run_world. run_M. simpl. rewrite Hdir. simpl.
  rewrite Hopen, Hpay. simpl. split; [apply lookup_insert_eq|set_solver].
Qed.

(** A message attached to a message ([message/rfc822], a part that has a
    disposition and a file name and whose payload is a list of parts) is
    not saved: its file is left empty, replacing what was there, the
    [TypeError] of the write is logged, and the message is marked as any
    other. *)
Theorem process_email_attached_message E h id msg dir s l1 part l2 p :
  let s' := (process_email E id s).2 in
  mail (self s) = Some h →
  attachments_dir (self s) = Some dir →
  srv_fetch E id = inr ("OK", Some msg) →
  in_senders (get_from msg) (senders_dict (self s)) = true →
  is_multipart msg = true →
  walk msg = l1 ++ part :: l2 →
  attachment_path dir part = Some p →
  is_multipart part = true →
  fs_open_err E p = None →
  (∀ later, later ∈ l2 → attachment_path dir later ≠ Some p) →
  fs_files (wld s') !! p = Some []
  ∧ Log ERROR (SaveError (default "" (get_filename part)) (OtherException "TypeError"))
      ∈ trace (wld s')
  ∧ ImapStore h id "+FLAGS" "\Seen" ∈ trace (wld s').
Proof.
  intros s' Hmail Hdir Hfetch Hin Hmulti Hwalk Hpath Hpart Hopen Hlater. subst s'.
  rewrite (process_email_listed E h id msg dir s Hmail Hdir Hfetch Hin).
  set (s1 := fetched_state h id s).
  assert (Hdir1 : attachments_dir (self s1) = Some dir) by done.
  assert (Hpay : get_payload_decoded part = None) by by destruct part.
  assert (Hsaved :
    fs_files (wld (save_attachments E msg (get_from msg) s1).2) !! p = Some []
    ∧ Log ERROR (SaveError (default "" (get_filename part)) (OtherException "TypeError"))
        ∈ trace (wld (save_attachments E msg (get_from msg) s1).2)).
  { unfold save_attachments. rewrite Hmulti, Hwalk, for_each_app.
    destruct (save_parts_spec E (get_from msg) dir l1 s1 Hdir1) as (Hr1 & Hself1 & _).
    destruct (for_each l1 _ s1) as [[[]|e] s2]; simpl in *; [|done].
    unfold mbind, M_bind.
    assert (Hdir2 : attachments_dir (self s2) = Some dir) by by rewrite Hself1.
    destruct (save_part_spec E (get_from msg) dir part s2 Hdir2) as (Hr2 & Hself2 & _).
    destruct (save_part_undecodable E (get_from msg) dir part p s2 Hdir2 Hpath Hpay Hopen)
      as (Hfile & Hlog).
    destruct ((if is_attachment part then save_attachment E part (get_from msg)
               else mret tt) s2) as [[[]|e] s3]; simpl in *; [|done].
    assert (Hdir3 : attachments_dir (self s3) = Some dir) by by rewrite Hself2.
    destruct (save_parts_spec E (get_from msg) dir l2 s3 Hdir3) as (_ & _ & _ & Hframe).
    split; [by rewrite Hframe|].
    eapply extends_elem_of; [apply save_parts_extends|done]. }
  destruct Hsaved as (Hfile & Hlog).
  destruct (srv_store E id); simpl; (split_and!; [done|set_solver|set_solver]).
Qed.

(** ** Which messages [download_attachments] marks *)

Global Instance marks_listed_only_preorder E : PreOrder (marks_listed_only E).
Proof.
  split.
  - intros s. split_and!; [done|done|done|by left|].
    exists []. split; [by rewrite app_nil_r|constructor].
  - intros s1 s2 s3 (Hs12 & Hd12 & Hi12 & Hm12 & t12 & Ht12 & Hq12)
                    (Hs23 & Hd23 & Hi23 & Hm23 & t23 & Ht23 & Hq23).
    split_and!; [congruence|congruence|by etrans| |].
    + intros id Hid. destruct (Hm23 id Hid) as [Hin|Hl]; [by apply Hm12|by right].
    + exists (t12 ++ t23). split; [by rewrite Ht23, Ht12, <- app_assoc|].
      apply Forall_app. split; [done|]. by rewrite <- Hs12.
Qed.

Lemma not_store_listed E d e : is_store e = false → store_listed E d e.
Proof. intros He h id flags value ->. done. Qed.

Lemma marks_listed_only_keeps E {A} (m : M A) :
  preserves (keeps (λ s, (self s, fs_dirs (wld s), seen (wld s)))) m →
  preserves (extends (λ e, is_store e = false)) m →
  preserves (marks_listed_only E) m.
Proof.
  intros Hm Hq s. specialize (Hm s). destruct (Hq s) as (t & Ht & Hall).
  unfold keeps in Hm. injection Hm as Hs Hd Hsn.
  split_and!; [done|done|by rewrite Hsn| |].
  - intros id Hid. left. by rewrite <- Hsn.
  - exists t. split; [done|].
    eapply Forall_impl; [exact Hall|]. intros e. apply not_store_listed.
Qed.

Lemma save_attachments_keeps_marks E msg sender :
  preserves (keeps (λ s, (self s, fs_dirs (wld s), seen (wld s))))
    (save_attachments E msg sender).
Proof. frame_keeps. Qed.

Lemma save_attachments_no_store E msg sender :
  preserves (extends (λ e, is_store e = false)) (save_attachments E msg sender).
Proof. frame_extends done. Qed.

(** A run of [process_email] that sends no STORE. *)
Lemma marks_listed_only_no_store E id s w' t :
  fs_dirs w' = fs_dirs (wld s) →
  seen w' = seen (wld s) ∨ (seen w' = {[id]} ∪ seen (wld s) ∧ delivers E id = true) →
  trace w' = trace (wld s) ++ t →
  Forall (λ e, is_store e = false) t →
  marks_listed_only E s (State (self s) w').
Proof.
  intros Hd Hsn Ht Hall. split_and!; [done|done| | |].
  - simpl. destruct Hsn as [->|[-> _]]; [done|]. apply union_subseteq_r.
  - intros id' Hid. simpl in Hid. destruct Hsn as [Hsn|[Hsn Hdel]]; rewrite Hsn in Hid.
    + by left.
    + apply elem_of_union in Hid as [Hid|Hid]; [|by left].
      apply elem_of_singleton in Hid. subst id'. by right.
  - exists t. split; [done|].
    eapply Forall_impl; [exact Hall|]. intros e. apply not_store_listed.
Qed.

Lemma process_email_marks_listed_only E id :
  preserves (marks_listed_only E) (process_email E id).
Proof.
  intros s.
  destruct (mail (self s)) as [h|] eqn:Hmail.
  2: { unfold process_email, process_email_try, process_fetched. run_world. run_M.
       simpl. rewrite Hmail. simpl.
       eapply (marks_listed_only_no_store E id);
         [done|by left|trace_done|simpl; by repeat constructor]. }
  destruct (srv_fetch E id) as [e|[st md]] eqn:Hfetch.
  { unfold process_email, process_email_try, process_fetched. run_world. run_M.
    simpl. rewrite Hmail, Hfetch. simpl.
    eapply (marks_listed_only_no_store E id);
      [done|by left|trace_done|simpl; by repeat constructor]. }
  destruct (decide (st = "OK")) as [->|Hst].
  2: { unfold process_email, process_email_try, process_fetched. run_world. run_M.
       simpl. rewrite Hmail, Hfetch. simpl.
       rewrite fetch_sets_seen_rfc822, !bool_decide_eq_false_2 by done. simpl.
       rewrite bool_decide_eq_true_2 by done. simpl.
       eapply (marks_listed_only_no_store E id);
         [done|by left|trace_done|simpl; by repeat constructor]. }
  destruct md as [msg|].
  2: { unfold process_email, process_email_try, process_fetched. run_world. run_M.
       simpl. rewrite Hmail, Hfetch. simpl.
       eapply (marks_listed_only_no_store E id);
         [done|by left|trace_done|simpl; by repeat constructor]. }
  assert (Hdel : delivers E id = true) by (unfold delivers; by rewrite Hfetch).
  destruct (in_senders (get_from msg) (senders_dict (self s))) eqn:Hin.
  2: { rewrite (process_email_not_listed E h id msg s Hmail Hfetch Hin). simpl.
       eapply (marks_listed_only_no_store E id);
         [done|by right|done|]. destruct (from_is_header msg); by repeat constructor. }
  assert (Hlisted : delivers_listed E (senders_dict (self s)) id = true).
  { unfold delivers_listed. by rewrite Hfetch, Hin. }
  rewrite process_email_catches. unfold process_email_try, process_fetched.
  run_world. run_M. simpl. rewrite Hmail, Hfetch. simpl.
  rewrite (in_senders_is_str msg _ Hin). simpl. rewrite Hin.
  change (State (self s) _) with (fetched_state h id s).
  set (s1 := fetched_state h id s).
  pose proof (save_attachments_keeps_marks E msg (get_from msg) s1) as Hkeep.
  destruct (save_attachments_no_store E msg (get_from msg) s1) as (t & Ht & Hall).
  unfold keeps in Hkeep. simpl in Hkeep, Ht.
  assert (Hall' : Forall (store_listed E (senders_dict (self s))) t).
  { eapply Forall_impl; [exact Hall|]. intros e. apply not_store_listed. }
  assert (Hfetched : store_listed E (senders_dict (self s)) (ImapFetch h id "(RFC822)"))
    by by apply not_store_listed.
  assert (Hstore : store_listed E (senders_dict (self s))
                     (ImapStore h id "+FLAGS" "\Seen")).
  { by intros h' id' flags value [= _ <- _ _]. }
  destruct (save_attachments E msg (get_from msg) s1) as [[[]|e] s2]; simpl in *;
    injection Hkeep as Hs Hd Hsn.
  - rewrite Hs, Hmail. simpl.
    destruct (srv_store E id) as [e|]; simpl;
      (split_and!; simpl; [done|done| | |]).
    + rewrite Hsn. apply union_subseteq_r.
    + intros id' Hid. rewrite Hsn in Hid.
      apply elem_of_union in Hid as [Hid|Hid]; [|by left].
      apply elem_of_singleton in Hid. subst id'. by right.
    + exists (ImapFetch h id "(RFC822)" :: t
              ++ [ImapStore h id "+FLAGS" "\Seen"; Log ERROR (ProcessingError id e)]).
      split; [unfold emit; simpl; rewrite Ht; simpl; by rewrite <- !app_assoc|].
      constructor; [done|]. apply Forall_app. split; [done|].
      constructor; [done|]. constructor; [|done]. by apply not_store_listed.
    + rewrite Hsn. etrans; [|apply union_subseteq_r]. apply union_subseteq_r.
    + intros id' Hid. rewrite Hsn in Hid.
      rewrite !elem_of_union, elem_of_singleton in Hid.
      destruct Hid as [->|[->|Hid]]; [by right|by right|by left].
    + exists (ImapFetch h id "(RFC822)" :: t ++ [ImapStore h id "+FLAGS" "\Seen"]).
      split; [unfold emit; simpl; rewrite Ht; simpl; by rewrite <- !app_assoc|].
      constructor; [done|]. apply Forall_app. split; [done|].
      by constructor.
  - split_and!; simpl; [done|done| | |].
    + rewrite Hsn. apply union_subseteq_r.
    + intros id' Hid. rewrite Hsn in Hid.
      apply elem_of_union in Hid as [Hid|Hid]; [|by left].
      apply elem_of_singleton in Hid. subst id'. by right.
    + exists (ImapFetch h id "(RFC822)" :: t ++ [Log ERROR (ProcessingError id e)]).
      split; [unfold emit; simpl; rewrite Ht; simpl; by rewrite <- !app_assoc|].
      constructor; [done|]. apply Forall_app. split; [done|].
      constructor; [|done]. by apply not_store_listed.
Qed.

(** Whatever the server answers, [download_attachments] sends a STORE
    only for a message that the fetch delivers, with status OK, from a
    sender in [senders_dict].  The messages that newly have their seen
    flag are messages that a fetch delivers with status OK, of a listed
    sender or not; no flag is cleared.  It makes no directory and
    assigns to no field of the downloader. *)
Theorem download_attachments_marks_listed_only E s :
  let r := download_attachments E s in
  self r.2 = self s
  ∧ fs_dirs (wld r.2) = fs_dirs (wld s)
  ∧ seen (wld s) ⊆ seen (wld r.2)
  ∧ (∀ id, id ∈ seen (wld r.2) → id ∈ seen (wld s) ∨ delivers E id = true)
  ∧ ∃ t, trace (wld r.2) = trace (wld s) ++ t
         ∧ Forall (store_listed E (senders_dict (self s))) t.
Proof.
  revert s. change (preserves (marks_listed_only E) (download_attachments E)).
  unfold download_attachments.
  apply preserves_bind; [apply _|apply preserves_gets; apply _|intros [h|]].
  - apply preserves_while_retries; [apply _| | |].
    + unfold download_attempt.
      apply preserves_bind; [apply _| |intros _].
      { apply marks_listed_only_keeps; [frame_keeps|frame_extends done]. }
      apply preserves_bind; [apply _| |intros data].
      { apply marks_listed_only_keeps; [frame_keeps|frame_extends done]. }
      apply preserves_bind; [apply _| |intros ids].
      { apply marks_listed_only_keeps; [frame_keeps|frame_extends done]. }
      apply preserves_for_each; [apply _|]. intros id.
      apply process_email_marks_listed_only.
    + intros n e. apply marks_listed_only_keeps; [frame_keeps|frame_extends done].
    + apply marks_listed_only_keeps; [frame_keeps|frame_extends done].
  - apply marks_listed_only_keeps; [frame_keeps|frame_extends done].
Qed.

(** ** The retries of [download_attachments] *)

Lemma selections_app t1 t2 : selections (t1 ++ t2) = selections t1 + selections t2.
Proof. unfold selections. by rewrite List.filter_app, length_app. Qed.

Lemma selections_none t : Forall (λ e, is_select e = false) t → selections t = 0.
Proof.
  induction 1 as [|e t He _ IH]; [done|]. unfold selections in *. simpl.
  by rewrite He.
Qed.

Lemma sleeps_none t : Forall (λ e, is_sleep e = false) t → sleeps t = [].
Proof.
  induction 1 as [|e t He _ IH]; [done|]. destruct e; try done; exact IH.
Qed.

Lemma attempts_none t : Forall (λ e, is_open e = false) t → attempts t = 0.
Proof.
  induction 1 as [|e t He _ IH]; [done|]. unfold attempts in *. simpl.
  by rewrite He.
Qed.

Lemma for_each_process_email_quiet E ids :
  preserves (extends (λ e, is_select e = false ∧ is_sleep e = false
                           ∧ is_open e = false ∧ is_logout e = false))
    (for_each ids (process_email E)).
Proof. frame_extends done. Qed.

Lemma for_each_process_email_keeps E ids :
  preserves (keeps (λ s, (n_select (wld s), n_open (wld s))))
    (for_each ids (process_email E)).
Proof. frame_keeps. Qed.

(** One pass through the [try] block of [download_attachments]. *)
Lemma download_attempt_spec E h s :
  mail (self s) = Some h →
  ∃ o s1 t,
    download_attempt E h s = (o, s1)
    ∧ self s1 = self s
    ∧ trace (wld s1) = trace (wld s) ++ t
    ∧ selections t = 1 ∧ sleeps t = [] ∧ attempts t = 0
    ∧ Forall (λ e, is_logout e = false) t
    ∧ n_select (wld s1) = S (n_select (wld s))
    ∧ match search_result E (n_select (wld s)) with
      | inl e => o = Raises e ∧ fetches t = []
      | inr ids => o = Returns tt ∧ fetches t = ids
      end.
Proof.
  intros Hmail. unfold download_attempt, search_result. run_world. run_M. simpl.
  destruct (srv_select E (n_select (wld s))) as [e|]; simpl.
  { eexists _, _, [_].
    split_and!; first [reflexivity | by repeat constructor]. }
  destruct (srv_search E (n_select (wld s))) as [e|[ids|]]; simpl.
  { eexists _, _, [_; _].
    split_and!;
      first [reflexivity | simpl; rewrite <- ?app_assoc; reflexivity
            | by repeat constructor]. }
  2: { eexists _, _, [_; _].
       split_and!;
         first [reflexivity | simpl; rewrite <- ?app_assoc; reflexivity
               | by repeat constructor]. }
  match goal with |- context [for_each ids (process_email E) ?s0] => set (s1 := s0) end.
  destruct (for_each_process_email E h ids s1 Hmail) as (Hr & Hself & t & Ht & Hf).
  pose proof (for_each_process_email_quiet E ids s1) as (t' & Ht' & Hq).
  pose proof (for_each_process_email_keeps E ids s1) as Hk.
  rewrite Ht in Ht'. apply app_inv_head in Ht'. subst t'.
  unfold keeps in Hk. injection Hk as Hns _.
  destruct (for_each ids (process_email E) s1) as [[[]|e] s2]; simpl in *; [|done].
  exists (Returns tt), s2, ([ImapSelect h "inbox"; ImapSearch h UNREAD_EMAIL_CRITERIA] ++ t).
  split_and!; try done.
  - by rewrite Ht, <- !app_assoc.
  - rewrite selections_app, (selections_none t); [done|].
    eapply Forall_impl; [exact Hq|]. by intros e (? & _).
  - rewrite sleeps_app, (sleeps_none t); [done|].
    eapply Forall_impl; [exact Hq|]. by intros e (_ & ? & _).
  - rewrite attempts_app, (attempts_none t); [done|].
    eapply Forall_impl; [exact Hq|]. by intros e (_ & _ & ? & _).
  - apply Forall_app. split; [by repeat constructor|].
    eapply Forall_impl; [exact Hq|]. by intros e (_ & _ & _ & ?).
Qed.

Lemma download_failed_spec retries e s :
  ∃ s1 t,
    download_failed retries e s = (Returns tt, s1)
    ∧ self s1 = self s
    ∧ trace (wld s1) = trace (wld s) ++ t
    ∧ selections t = 0 ∧ fetches t = [] ∧ attempts t = 0
    ∧ Forall (λ e, is_logout e = false) t
    ∧ sleeps t = (if retries <? MAX_RETRIES then [RETRY_DELAY] else [])
    ∧ n_select (wld s1) = n_select (wld s).
Proof.
  unfold download_failed. run_M. simpl.
  destruct (retries <? MAX_RETRIES); simpl.
  - eexists _, [_; _; _].
    split_and!;
      first [reflexivity | simpl; rewrite <- ?app_assoc; reflexivity
            | by repeat constructor].
  - eexists _, [_].
    split_and!; first [reflexivity | by repeat constructor].
Qed.

Lemma download_loop_succeeds E h ids N : ∀ retries s,
  mail (self s) = Some h →
  retries + N < MAX_RETRIES →
  (∀ i, i < N → search_fails_transiently E (n_select (wld s) + i) = true) →
  search_result E (n_select (wld s) + N) = inr ids →
  ∃ s' t,
    while_retries (download_attempt E h) download_failed download_exhausted retries s
      = (Returns tt, s')
    ∧ self s' = self s
    ∧ trace (wld s') = trace (wld s) ++ t
    ∧ selections t = N + 1 ∧ sleeps t = replicate N RETRY_DELAY
    ∧ fetches t = ids ∧ attempts t = 0
    ∧ Forall (λ e, is_logout e = false) t.
Proof.
  induction N as [|N IH]; intros retries s Hmail Hlt Hfail Hok;
    rewrite while_retries_step;
    (destruct (Nat.ltb_spec retries MAX_RETRIES); [|lia]);
    destruct (download_attempt_spec E h s Hmail)
      as (o & s1 & t1 & -> & Hself1 & Ht1 & Hc1 & Hs1 & Ha1 & Hl1 & Hn1 & Hres).
  - rewrite Nat.add_0_r in Hok. rewrite Hok in Hres. destruct Hres as [-> Hf1].
    by exists s1, t1.
  - specialize (Hfail 0 ltac:(lia)) as Hfail0. rewrite Nat.add_0_r in Hfail0.
    unfold search_fails_transiently in Hfail0.
    destruct (search_result E (n_select (wld s))) as [e|]; [|done].
    destruct Hres as [-> Hf1]. rewrite Hfail0.
    destruct (download_failed_spec (retries + 1) e s1)
      as (s2 & t2 & -> & Hself2 & Ht2 & Hc2 & Hf2 & Ha2 & Hl2 & Hs2 & Hn2).
    destruct (Nat.ltb_spec (retries + 1) MAX_RETRIES); [|lia].
    destruct (IH (retries + 1) s2) as (s' & t & -> & Hself & Ht & Hc & Hs & Hf & Ha & Hl).
    + by rewrite Hself2, Hself1.
    + lia.
    + intros i Hi. rewrite Hn2, Hn1.
      replace (S (n_select (wld s)) + i) with (n_select (wld s) + S i) by lia.
      apply Hfail. lia.
    + rewrite Hn2, Hn1. rewrite <- Hok. f_equal. lia.
    + exists s', (t1 ++ t2 ++ t). split_and!; [done|congruence| | | | | |].
      * by rewrite Ht, Ht2, Ht1, <- !app_assoc.
      * rewrite !selections_app. lia.
      * by rewrite !sleeps_app, Hs1, Hs2, Hs.
      * by rewrite !fetches_app, Hf1, Hf2, Hf.
      * rewrite !attempts_app. lia.
      * by rewrite !Forall_app.
Qed.

Lemma download_loop_exhausts E h : ∀ togo retries s,
  mail (self s) = Some h →
  retries + togo = MAX_RETRIES →
  (∀ i, i < togo → search_fails_transiently E (n_select (wld s) + i) = true) →
  ∃ s' t,
    while_retries (download_attempt E h) download_failed download_exhausted retries s
      = (Returns tt, s')
    ∧ self s' = self s
    ∧ trace (wld s') = trace (wld s) ++ t ++ [Log ERROR (DownloadGaveUp MAX_RETRIES)]
    ∧ selections t = togo ∧ sleeps t = replicate (pred togo) RETRY_DELAY
    ∧ fetches t = [].
Proof.
  induction togo as [|togo IH]; intros retries s Hmail Hsum Hfail;
    rewrite while_retries_step.
  - destruct (Nat.ltb_spec retries MAX_RETRIES); [lia|].
    unfold download_exhausted. run_M. simpl. by eexists _, [].
  - destruct (Nat.ltb_spec retries MAX_RETRIES); [|lia].
    destruct (download_attempt_spec E h s Hmail)
      as (o & s1 & t1 & -> & Hself1 & Ht1 & Hc1 & Hs1 & Ha1 & Hl1 & Hn1 & Hres).
    specialize (Hfail 0 ltac:(lia)) as Hfail0. rewrite Nat.add_0_r in Hfail0.
    unfold search_fails_transiently in Hfail0.
    destruct (search_result E (n_select (wld s))) as [e|]; [|done].
    destruct Hres as [-> Hf1]. rewrite Hfail0.
    destruct (download_failed_spec (retries + 1) e s1)
      as (s2 & t2 & -> & Hself2 & Ht2 & Hc2 & Hf2 & Ha2 & Hl2 & Hs2 & Hn2).
    destruct (IH (retries + 1) s2) as (s' & t & -> & Hself & Ht & Hc & Hs & Hf).
    + by rewrite Hself2, Hself1.
    + lia.
    + intros i Hi. rewrite Hn2, Hn1.
      replace (S (n_select (wld s)) + i) with (n_select (wld s) + S i) by lia.
      apply Hfail. lia.
    + exists s', (t1 ++ t2 ++ t). split_and!; [done|congruence| | | |].
      * by rewrite Ht, Ht2, Ht1, <- !app_assoc.
      * rewrite !selections_app. lia.
      * rewrite !sleeps_app, Hs1, Hs2, Hs. simpl.
        destruct (Nat.ltb_spec (retries + 1) MAX_RETRIES), togo; simpl; try done; lia.
      * by rewrite !fetches_app, Hf1, Hf2, Hf.
Qed.

(** When the first [N] selections or searches of the inbox fail with an
    IMAP error and the next one gives the unread ids, with [N < 3],
    [download_attachments] returns after [N + 1] selections and [N]
    waits of 5 seconds, and has fetched each of these ids once, in the
    order of the server: no message is fetched in a failed attempt.
    When three in a row fail, it gives up: it has fetched nothing, logs
    the failure and returns, raising nothing. *)
Theorem download_attachments_retry E h s :
  let k0 := n_select (wld s) in
  let r := download_attachments E s in
  mail (self s) = Some h →
  (∀ N ids,
     N < 3 →
     (∀ i, i < N → search_fails_transiently E (k0 + i) = true) →
     search_result E (k0 + N) = inr ids →
     r.1 = Returns tt
     ∧ ∃ t, trace (wld r.2) = trace (wld s) ++ t
            ∧ selections t = N + 1 ∧ sleeps t = replicate N 5
            ∧ fetches t = ids)
  ∧ ((∀ i, i < 3 → search_fails_transiently E (k0 + i) = true) →
     r.1 = Returns tt
     ∧ ∃ t, trace (wld r.2) = trace (wld s) ++ t ++ [Log ERROR (DownloadGaveUp 3)]
            ∧ selections t = 3 ∧ sleeps t = [5; 5]
            ∧ fetches t = []).
Proof.
  intros k0 r Hmail. subst k0 r. unfold download_attachments.
  unfold mbind, M_bind, gets. rewrite Hmail. split.
  - intros N ids Hlt Hfail Hok.
    destruct (download_loop_succeeds E h ids N 0 s)
      as (s' & t & -> & _ & Ht & Hc & Hs & Hf & _);
      [done|unfold MAX_RETRIES; lia|done|done|].
    split; [done|]. by exists t.
  - intros Hfail.
    destruct (download_loop_exhausts E h 3 0 s) as (s' & t & -> & _ & Ht & Hc & Hs & Hf);
      [done|done|done|].
    split; [done|]. by exists t.
Qed.

Lemma download_attachments_raises_at_once E h s e :
  mail (self s) = Some h →
  search_result E (n_select (wld s)) = inl e →
  is_IMAP4_error e = false →
  download_attachments E s =
    (Raises e,
     State (self s)
       (World (fs_dirs (wld s)) (fs_files (wld s)) (fs_disk (wld s)) (seen (wld s)) (today (wld s))
              (n_open (wld s)) (S (n_select (wld s)))
              (trace (wld s)
                 ++ ImapSelect h "inbox"
                    :: match srv_select E (n_select (wld s)) with
                       | Some _ => []
                       | None => [ImapSearch h UNREAD_EMAIL_CRITERIA]
                       end))).
Proof.
  intros Hmail Hres Himap. unfold download_attachments.
  unfold mbind, M_bind, gets. rewrite Hmail. rewrite while_retries_step.
  change (0 <? MAX_RETRIES) with true. cbv iota.
  unfold search_result in Hres. unfold download_attempt. run_world. run_M. simpl.
  destruct (srv_select E (n_select (wld s))) as [e1|]; simpl.
  - injection Hres as ->. by rewrite Himap.
  - destruct (srv_search E (n_select (wld s))) as [e1|[ids|]]; [|done|];
      injection Hres as <-; simpl; rewrite ?Himap; unfold emit; simpl;
      by rewrite <- app_assoc.
Qed.

(** An exception of the selection or of the search that is no IMAP
    error is not retried: [download_attachments] raises it after one
    selection, with no wait, no fetch and no log line. *)
Theorem download_attachments_unexpected_exception E h s e :
  let r := download_attachments E s in
  mail (self s) = Some h →
  search_result E (n_select (wld s)) = inl e →
  is_IMAP4_error e = false →
  r.1 = Raises e
  ∧ self r.2 = self s
  ∧ ∃ t, trace (wld r.2) = trace (wld s) ++ t
         ∧ selections t = 1 ∧ sleeps t = [] ∧ fetches t = []
         ∧ Forall (λ ev, is_log ev = false ∧ is_logout ev = false) t.
Proof.
  intros r Hmail Hres Himap. subst r.
  rewrite (download_attachments_raises_at_once E h s e Hmail Hres Himap). simpl.
  split_and!; [done|done|].
  eexists. split; [reflexivity|].
  destruct (srv_select E (n_select (wld s))); (split_and!; [done..|by repeat constructor]).
Qed.

(** ** An account's run after a connection at the first attempt *)

Lemma connect_at_once E s h :
  attempt_result E (n_open (wld s)) = inr h →
  connect E s =
    (Returns tt,
     State (Downloader (email_user (self s)) (email_pass (self s)) (base_dir (self s))
                       (senders_dict (self s)) (Some h) (attachments_dir (self s)))
       (emit (Log INFO (Connected (email_user (self s))))
          (emit (ImapLogin h (email_user (self s)) (email_pass (self s)))
             (emit (ImapOpen GMAIL_IMAP_SERVER)
                (World (fs_dirs (wld s)) (fs_files (wld s)) (fs_disk (wld s)) (seen (wld s)) (today (wld s))
                       (S (n_open (wld s))) (n_select (wld s)) (trace (wld s))))))).
Proof.
  intros Hres. unfold connect. rewrite while_retries_step.
  change (0 <? MAX_RETRIES) with true. cbv iota.
  unfold attempt_result in Hres. unfold connect_attempt. run_world. run_M. simpl.
  destruct (srv_open E (n_open (wld s))) as [e|h']; [done|]. simpl.
  destruct (srv_login E h') as [e|]; [done|]. injection Hres as ->. done.
Qed.

Lemma run_account_connected E a s h :
  attempt_result E (n_open (wld s)) = inr h →
  run_account E a s =
    (create_attachments_directory E ;;
     dir ← gets (λ s, attachments_dir (self s));
     (if truthy dir then download_attachments E else mret tt) ;;
     logout E)
      (State (Downloader (acc_email_user a) (acc_email_pass a) (acc_base_dir a)
                         (acc_senders_dict a) (Some h) None)
         (emit (Log INFO (Connected (acc_email_user a)))
            (emit (ImapLogin h (acc_email_user a) (acc_email_pass a))
               (emit (ImapOpen GMAIL_IMAP_SERVER)
                  (World (fs_dirs (wld s)) (fs_files (wld s)) (fs_disk (wld s)) (seen (wld s))
                         (today (wld s)) (S (n_open (wld s))) (n_select (wld s))
                         (trace (wld s))))))).
Proof.
  intros Hres. unfold run_account, new_downloader.
  unfold mbind at 1, M_bind at 1, modify at 1.
  unfold mbind at 1, M_bind at 1.
  by rewrite (connect_at_once E _ h) by exact Hres.
Qed.

(** When the directory of the day cannot be made, the account's run
    makes no call on the mailbox: after the connection come the failed
    [os.makedirs], its error line and the LOGOUT, and nothing else.  No
    file and no flag changes; on the disk are, new, the parents that
    [os.makedirs] made before it failed, and nothing else.  What the run
    returns or raises is what the LOGOUT does. *)
Theorem run_account_directory_failed E a s h e :
  let dir := os_path_join (acc_base_dir a) (today (wld s)) in
  let r := run_account E a s in
  attempt_result E (n_open (wld s)) = inr h →
  dir ∉ fs_dirs (wld s) →
  fs_makedirs_err E dir = Some e →
  r.1 = match srv_logout E h with
        | None => Returns tt
        | Some e' => Raises e'
        end
  ∧ trace (wld r.2) =
      trace (wld s)
        ++ [ImapOpen GMAIL_IMAP_SERVER;
            ImapLogin h (acc_email_user a) (acc_email_pass a);
            Log INFO (Connected (acc_email_user a));
            Makedirs dir;
            Log ERROR (DirectoryError dir e);
            ImapLogout h]
        ++ match srv_logout E h with
           | None => [Log INFO (LoggedOut (acc_email_user a))]
           | Some _ => []
           end
  ∧ fs_dirs (wld r.2) = fs_makedirs_parents E dir ∪ fs_dirs (wld s)
  ∧ fs_files (wld r.2) = fs_files (wld s)
  ∧ fs_disk (wld r.2) = fs_disk (wld s)
  ∧ seen (wld r.2) = seen (wld s).
Proof.
  intros dir r Hres Hdir Herr. subst r dir.
  rewrite (run_account_connected E a s h Hres).
  unfold create_attachments_directory, logout. run_world. run_M. simpl.
  rewrite bool_decide_eq_false_2 by done. simpl. rewrite Herr. simpl.
  destruct (srv_logout E h); simpl;
    (split_and!; try done; simpl; by rewrite <- ?app_assoc).
Qed.

(** When the first connection attempt succeeds, the directory of the day
    is there or can be made, and the first selection and search give the
    unread ids, the account's run fetches each of these ids once, in
    order, after one connection and one selection with no wait, and ends
    with the LOGOUT and its log line. *)
Theorem run_account_downloads E a s h ids :
  let dir := os_path_join (acc_base_dir a) (today (wld s)) in
  let r := run_account E a s in
  attempt_result E (n_open (wld s)) = inr h →
  dir ∈ fs_dirs (wld s) ∨ fs_makedirs_err E dir = None →
  dir ≠ "" →
  search_result E (n_select (wld s)) = inr ids →
  srv_logout E h = None →
  r.1 = Returns tt
  ∧ ∃ t, trace (wld r.2) =
           trace (wld s) ++ t
             ++ [ImapLogout h; Log INFO (LoggedOut (acc_email_user a))]
         ∧ attempts t = 1 ∧ selections t = 1 ∧ sleeps t = []
         ∧ fetches t = ids
         ∧ Forall (λ e, is_logout e = false) t.
Proof.
  intros dir r Hres Hdir Hne Hsearch Hlogout. subst r dir.
  rewrite (run_account_connected E a s h Hres).
  unfold create_attachments_directory, download_attachments, logout.
  run_world. run_M. simpl.
  assert (Hrun : ∀ s2 : state,
    mail (self s2) = Some h → email_user (self s2) = acc_email_user a →
    n_select (wld s2) = n_select (wld s) →
    ∀ t0, trace (wld s2) = trace (wld s) ++ t0 →
    attempts t0 = 1 → selections t0 = 0 → sleeps t0 = [] → fetches t0 = [] →
    Forall (λ e, is_logout e = false) t0 →
    ∃ s3 t,
      while_retries (download_attempt E h) download_failed download_exhausted 0 s2
        = (Returns tt, s3)
      ∧ mail (self s3) = Some h ∧ email_user (self s3) = acc_email_user a
      ∧ trace (wld s3) = trace (wld s) ++ t
      ∧ attempts t = 1 ∧ selections t = 1 ∧ sleeps t = [] ∧ fetches t = ids
      ∧ Forall (λ e, is_logout e = false) t).
  { intros s2 Hmail Huser Hns t0 Ht0 Ha0 Hc0 Hs0 Hf0 Hl0.
    destruct (download_loop_succeeds E h ids 0 0 s2)
      as (s3 & t & Heq & Hself & Ht & Hc & Hs & Hf & Ha & Hl);
      [done|unfold MAX_RETRIES; lia|intros i Hi; lia|by rewrite Hns, Nat.add_0_r|].
    exists s3, (t0 ++ t). split_and!; [done|congruence|congruence| | | | | |].
    - by rewrite Ht, Ht0, <- app_assoc.
    - rewrite attempts_app. lia.
    - rewrite selections_app. lia.
    - by rewrite sleeps_app, Hs0, Hs.
    - by rewrite fetches_app, Hf0, Hf.
    - by apply Forall_app. }
  case_bool_decide as Hthere; simpl.
  - rewrite bool_decide_eq_true_2 by done. simpl.
    match goal with |- context [while_retries _ _ _ 0 ?s0] => set (s2 := s0) end.
    destruct (Hrun s2 eq_refl eq_refl eq_refl
                [ImapOpen GMAIL_IMAP_SERVER;
                 ImapLogin h (acc_email_user a) (acc_email_pass a);
                 Log INFO (Connected (acc_email_user a))])
      as (s3 & t & -> & Hmail & Huser & Ht & Ha & Hc & Hs & Hf & Hl);
      [by simpl; rewrite <- !app_assoc|done|done|done|done|by repeat constructor|].
    simpl. rewrite Hmail, Hlogout. simpl. rewrite Huser. split; [done|].
    exists t. split_and!; try done. simpl. by rewrite Ht, <- !app_assoc.
  - destruct Hdir as [Hdir|Hdir]; [done|]. rewrite Hdir. simpl.
    rewrite bool_decide_eq_true_2 by done. simpl.
    match goal with |- context [while_retries _ _ _ 0 ?s0] => set (s2 := s0) end.
    destruct (Hrun s2 eq_refl eq_refl eq_refl
                [ImapOpen GMAIL_IMAP_SERVER;
                 ImapLogin h (acc_email_user a) (acc_email_pass a);
                 Log INFO (Connected (acc_email_user a));
                 Makedirs (os_path_join (acc_base_dir a) (today (wld s)));
                 Log INFO (CreatedDirectory
                             (os_path_join (acc_base_dir a) (today (wld s))))])
      as (s3 & t & -> & Hmail & Huser & Ht & Ha & Hc & Hs & Hf & Hl);
      [by simpl; rewrite <- !app_assoc|done|done|done|done|by repeat constructor|].
    simpl. rewrite Hmail, Hlogout. simpl. rewrite Huser. split; [done|].
    exists t. split_and!; try done. simpl. by rewrite Ht, <- !app_assoc.
Qed.

(** When the selection or the search raises an exception that is no
    IMAP error, the account's run raises it and sends no LOGOUT: the
    downloader is left holding its connection. *)
Theorem run_account_leaves_connection_open E a s h e :
  let dir := os_path_join (acc_base_dir a) (today (wld s)) in
  let r := run_account E a s in
  attempt_result E (n_open (wld s)) = inr h →
  dir ∈ fs_dirs (wld s) ∨ fs_makedirs_err E dir = None →
  dir ≠ "" →
  search_result E (n_select (wld s)) = inl e →
  is_IMAP4_error e = false →
  r.1 = Raises e
  ∧ mail (self r.2) = Some h
  ∧ ∃ t, trace (wld r.2) = trace (wld s) ++ t
         ∧ Forall (λ ev, is_logout ev = false) t.
Proof.
  intros dir r Hres Hdir Hne Hsearch Himap. subst r dir.
  rewrite (run_account_connected E a s h Hres).
  unfold create_attachments_directory. run_world. run_M. simpl.
  assert (Hrun : ∀ s2 : state,
    mail (self s2) = Some h → n_select (wld s2) = n_select (wld s) →
    ∀ t0, trace (wld s2) = trace (wld s) ++ t0 →
    Forall (λ ev, is_logout ev = false) t0 →
    ∃ s3 t,
      download_attachments E s2 = (Raises e, s3)
      ∧ mail (self s3) = Some h
      ∧ trace (wld s3) = trace (wld s) ++ t
      ∧ Forall (λ ev, is_logout ev = false) t).
  { intros s2 Hmail Hns t0 Ht0 Hl0.
    rewrite (download_attachments_raises_at_once E h s2 e Hmail) by
      (by rewrite ?Hns).
    eexists _, _. split_and!; [reflexivity|done| |].
    - simpl. rewrite Ht0, <- app_assoc. reflexivity.
    - apply Forall_app. split; [done|].
      destruct (srv_select E (n_select (wld s2))); by repeat constructor. }
  case_bool_decide as Hthere; simpl.
  - rewrite bool_decide_eq_true_2 by done.
    match goal with |- context [download_attachments E ?s0] => set (s2 := s0) end.
    destruct (Hrun s2 eq_refl eq_refl
                [ImapOpen GMAIL_IMAP_SERVER;
                 ImapLogin h (acc_email_user a) (acc_email_pass a);
                 Log INFO (Connected (acc_email_user a))])
      as (s3 & t & -> & Hmail & Ht & Hl);
      [by simpl; rewrite <- !app_assoc|by repeat constructor|].
    simpl. split_and!; [done|done|]. by exists t.
  - destruct Hdir as [Hdir|Hdir]; [done|]. rewrite Hdir. simpl.
    rewrite bool_decide_eq_true_2 by done.
    match goal with |- context [download_attachments E ?s0] => set (s2 := s0) end.
    destruct (Hrun s2 eq_refl eq_refl
                [ImapOpen GMAIL_IMAP_SERVER;
                 ImapLogin h (acc_email_user a) (acc_email_pass a);
                 Log INFO (Connected (acc_email_user a));
                 Makedirs (os_path_join (acc_base_dir a) (today (wld s)));
                 Log INFO (CreatedDirectory
                             (os_path_join (acc_base_dir a) (today (wld s))))])
      as (s3 & t & -> & Hmail & Ht & Hl);
      [by simpl; rewrite <- !app_assoc|by repeat constructor|].
    simpl. split_and!; [done|done|]. by exists t.
Qed.

(** ** The LOGOUT of an account's run *)

Lemma connect_no_logout E :
  preserves (extends (λ e, is_logout e = false)) (connect E).
Proof. frame_extends done. Qed.

Lemma create_attachments_directory_no_logout E :
  preserves (extends (λ e, is_logout e = false)) (create_attachments_directory E).
Proof. frame_extends done. Qed.

Lemma download_attachments_no_logout E :
  preserves (extends (λ e, is_logout e = false)) (download_attachments E).
Proof. frame_extends done. Qed.

Lemma create_attachments_directory_keeps_user E :
  preserves (keeps (λ s, email_user (self s))) (create_attachments_directory E).
Proof. frame_keeps. Qed.

Lemma download_attachments_keeps_self E :
  preserves (keeps self) (download_attachments E).
Proof. frame_keeps. Qed.

(** Whatever the server and the disk answer, an account's run sends the
    LOGOUT at most once, as the last thing it does but for the log line
    of a LOGOUT that went through.  A run that returns has either no
    connection or has logged out; a run that sent no LOGOUT and raised
    has left [run_account] before its last line. *)
Theorem run_account_logout_last E a s :
  let r := run_account E a s in
  ∃ t, Forall (λ e, is_logout e = false) t
       ∧ ((trace (wld r.2) = trace (wld s) ++ t
           ∧ (r.1 = Returns tt → mail (self r.2) = None))
          ∨ ∃ h, mail (self r.2) = Some h
                 ∧ ((r.1 = Returns tt ∧ srv_logout E h = None
                     ∧ trace (wld r.2) =
                         trace (wld s) ++ t
                           ++ [ImapLogout h; Log INFO (LoggedOut (acc_email_user a))])
                    ∨ (∃ e, r.1 = Raises e ∧ srv_logout E h = Some e
                            ∧ trace (wld r.2) = trace (wld s) ++ t ++ [ImapLogout h]))).
Proof.
  intros r. assert (Hr : r = run_account E a s) by done. clearbody r.
  unfold run_account, new_downloader in Hr.
  unfold mbind at 1, M_bind at 1, modify at 1 in Hr.
  set (s0 := State (Downloader (acc_email_user a) (acc_email_pass a) (acc_base_dir a)
                      (acc_senders_dict a) None None) (wld s)) in Hr.
  unfold mbind at 1, M_bind at 1 in Hr.
  pose proof (connect_no_logout E s0) as (t1 & Ht1 & Hl1).
  pose proof (connect_keeps_config E s0) as Hc1. unfold keeps in Hc1.
  injection Hc1 as Hu1 _ _ _ _.
  destruct (connect E s0) as [[[]|e1] s1]; simpl in *.
  2:{ subst r. exists t1. split; [done|]. left. by split. }
  unfold mbind at 1, M_bind at 1 in Hr.
  pose proof (create_attachments_directory_no_logout E s1) as (t2 & Ht2 & Hl2).
  pose proof (create_attachments_directory_keeps_user E s1) as Hu2. unfold keeps in Hu2.
  destruct (create_attachments_directory E s1) as [[[]|e2] s2]; simpl in *.
  2:{ subst r. simpl. exists (t1 ++ t2). split; [by apply Forall_app|]. left.
      split; [by rewrite Ht2, Ht1, app_assoc|done]. }
  unfold mbind at 1, M_bind at 1, gets at 1 in Hr. unfold mbind at 1, M_bind at 1 in Hr.
  assert (Hd : ∃ o3 s3 t3,
    (if truthy (attachments_dir (self s2)) then download_attachments E else mret tt) s2
      = (o3, s3)
    ∧ self s3 = self s2 ∧ trace (wld s3) = trace (wld s2) ++ t3
    ∧ Forall (λ e, is_logout e = false) t3).
  { destruct (truthy (attachments_dir (self s2))).
    - pose proof (download_attachments_no_logout E s2) as (t3 & Ht3 & Hl3).
      pose proof (download_attachments_keeps_self E s2) as Hs3.
      destruct (download_attachments E s2) as [o3 s3]. by exists o3, s3, t3.
    - exists (Returns tt), s2, []. split_and!; [done|done|by rewrite app_nil_r|done]. }
  destruct Hd as (o3 & s3 & t3 & Hd & Hself3 & Ht3 & Hl3). rewrite Hd in Hr.
  assert (Hpre : trace (wld s3) = trace (wld s) ++ (t1 ++ t2 ++ t3)).
  { by rewrite Ht3, Ht2, Ht1, <- !app_assoc. }
  assert (Hlpre : Forall (λ e, is_logout e = false) (t1 ++ t2 ++ t3)).
  { by rewrite !Forall_app. }
  exists (t1 ++ t2 ++ t3). split; [done|].
  destruct o3 as [[]|e3]; [|subst r; simpl; left; by split].
  unfold logout in Hr. run_world. run_M. simpl in Hr.
  destruct (mail (self s3)) as [h|] eqn:Hmail; simpl in Hr; [|subst r; simpl; left; by split].
  right. exists h.
  destruct (srv_logout E h) as [e|] eqn:Hlog; simpl in Hr; subst r; simpl.
  - split; [done|]. right. exists e. split_and!; [done|done|].
    by rewrite Hpre, <- !app_assoc.
  - split; [done|]. left. split_and!; [done|done|].
    rewrite Hself3, Hu2, Hu1, Hpre. by rewrite <- !app_assoc.
Qed.

(** * The further properties on the sample runs *)

Lemma connect_unexpected_exception_witness :
  attempt_result ex_login_breaks (n_open (wld ex_start))
    = inl (OtherException "OSError")
  ∧ is_IMAP4_error (OtherException "OSError") = false
  ∧ (connect ex_login_breaks ex_start).1 = Raises (OtherException "OSError")
  ∧ mail (self (connect ex_login_breaks ex_start).2) = Some 7.
Proof.
  split_and!; [reflexivity|reflexivity| |].
  - apply (connect_unexpected_exception ex_login_breaks ex_start
             (OtherException "OSError") eq_refl eq_refl).
  - apply (connect_unexpected_exception ex_login_breaks ex_start
             (OtherException "OSError") eq_refl eq_refl).
Defined.

Lemma process_email_fetch_failed_witness :
  mail (self ex_connected) = Some 7
  ∧ (∀ msg, srv_fetch ex_fetch_no "1" ≠ inr ("OK", Some msg))
  ∧ (process_email ex_fetch_no "1" ex_connected).1 = Returns tt
  ∧ seen (wld (process_email ex_fetch_no "1" ex_connected).2) = seen (wld ex_connected).
Proof.
  assert (Hno : ∀ msg, srv_fetch ex_fetch_no "1" ≠ inr ("OK", Some msg))
    by (intros msg; discriminate).
  destruct (process_email_fetch_failed ex_fetch_no 7 "1" ex_connected eq_refl Hno)
    as (Hr & _ & _ & _ & Hseen & _).
  split_and!; [reflexivity|exact Hno|exact Hr|exact Hseen].
Defined.

Lemma process_email_flat_message_witness :
  mail (self ex_connected) = Some 7
  ∧ srv_fetch (ex_serving ex_flat) "1" = inr ("OK", Some ex_flat)
  ∧ in_senders (get_from ex_flat) (senders_dict (self ex_connected)) = true
  ∧ is_multipart ex_flat = false
  ∧ is_attachment ex_flat = true
  ∧ fs_files (wld (process_email (ex_serving ex_flat) "1" ex_connected).2)
      = fs_files (wld ex_connected)
  ∧ seen (wld (process_email (ex_serving ex_flat) "1" ex_connected).2)
      = {["1"]} ∪ seen (wld ex_connected).
Proof.
  assert (Hin : in_senders (get_from ex_flat) (senders_dict (self ex_connected)) = true)
    by (vm_compute; reflexivity).
  destruct (process_email_flat_message (ex_serving ex_flat) 7 "1" ex_flat ex_connected
              eq_refl eq_refl Hin eq_refl) as (_ & Hfiles & _ & _ & Hseen).
  split_and!; [reflexivity|reflexivity|exact Hin|reflexivity|reflexivity|exact Hfiles|].
  exact (Hseen eq_refl).
Defined.

Lemma process_email_without_directory_witness :
  mail (self ex_no_directory) = Some 7
  ∧ attachments_dir (self ex_no_directory) = None
  ∧ srv_fetch (ex_serving ex_report) "1" = inr ("OK", Some ex_report)
  ∧ in_senders (get_from ex_report) (senders_dict (self ex_no_directory)) = true
  ∧ is_multipart ex_report = true
  ∧ fs_files (wld (process_email (ex_serving ex_report) "1" ex_no_directory).2)
      = fs_files (wld ex_no_directory)
  ∧ seen (wld (process_email (ex_serving ex_report) "1" ex_no_directory).2)
      = {["1"]} ∪ seen (wld ex_no_directory).
Proof.
  assert (Hin : in_senders (get_from ex_report) (senders_dict (self ex_no_directory))
                = true) by (vm_compute; reflexivity).
  assert (Hpart : ∃ part, part ∈ walk ex_report ∧ is_attachment part = true
                          ∧ truthy (get_filename part) = true).
  { exists (ex_attachment "a.pdf" [Byte.x01]).
    split_and!; [|reflexivity|reflexivity].
    apply list_elem_of_lookup. exists 2. reflexivity. }
  split_and!; [reflexivity|reflexivity|reflexivity|exact Hin|reflexivity| |];
    rewrite (process_email_without_directory (ex_serving ex_report) 7 "1" ex_report
               ex_no_directory eq_refl eq_refl eq_refl Hin eq_refl Hpart);
    reflexivity.
Defined.

Lemma process_email_attached_message_witness :
  mail (self ex_connected) = Some 7
  ∧ attachments_dir (self ex_connected) = Some "base/2024-01-02"
  ∧ srv_fetch (ex_serving ex_forward) "1" = inr ("OK", Some ex_forward)
  ∧ in_senders (get_from ex_forward) (senders_dict (self ex_connected)) = true
  ∧ is_multipart ex_forward = true
  ∧ fs_files (wld (process_email (ex_serving ex_forward) "1" ex_connected).2)
      !! "base/2024-01-02/fwd.eml" = Some [].
Proof.
  assert (Hin : in_senders (get_from ex_forward) (senders_dict (self ex_connected))
                = true) by (vm_compute; reflexivity).
  split_and!; [reflexivity|reflexivity|reflexivity|exact Hin|reflexivity|].
  apply (process_email_attached_message (ex_serving ex_forward) 7 "1" ex_forward
           "base/2024-01-02" ex_connected
           [ex_forward]
           (Multipart (Headers None "message" (Some "attachment") (Some "fwd.eml"))
              [Leaf (Headers (Some "c@z.com") "text" None None) [Byte.x68]])
           [Leaf (Headers (Some "c@z.com") "text" None None) [Byte.x68]]
           "base/2024-01-02/fwd.eml"
           eq_refl eq_refl eq_refl Hin eq_refl eq_refl);
    [vm_compute; reflexivity|reflexivity|reflexivity|].
  intros later Hlater. apply list_elem_of_singleton in Hlater. subst later.
  vm_compute. discriminate.
Defined.

Lemma download_attachments_retry_witness :
  mail (self ex_connected) = Some 7
  ∧ (∀ i, i < 2 →
       search_fails_transiently (ex_select_refusing 2) (n_select (wld ex_connected) + i)
         = true)
  ∧ search_result (ex_select_refusing 2) (n_select (wld ex_connected) + 2)
      = inr ["1"; "2"]
  ∧ (download_attachments (ex_select_refusing 2) ex_connected).1 = Returns tt
  ∧ (∀ i, i < 3 →
       search_fails_transiently (ex_select_refusing 3) (n_select (wld ex_connected) + i)
         = true)
  ∧ (download_attachments (ex_select_refusing 3) ex_connected).1 = Returns tt.
Proof.
  assert (H2 : ∀ i, i < 2 →
            search_fails_transiently (ex_select_refusing 2)
              (n_select (wld ex_connected) + i) = true).
  { intros [|[|i]] Hi; [reflexivity|reflexivity|lia]. }
  assert (H3 : ∀ i, i < 3 →
            search_fails_transiently (ex_select_refusing 3)
              (n_select (wld ex_connected) + i) = true).
  { intros [|[|[|i]]] Hi; [reflexivity|reflexivity|reflexivity|lia]. }
  split_and!; [reflexivity|exact H2|reflexivity| |exact H3|].
  - apply (proj1 (download_attachments_retry (ex_select_refusing 2) 7 ex_connected
                    eq_refl) 2 ["1"; "2"]); [lia|exact H2|reflexivity].
  - apply (proj2 (download_attachments_retry (ex_select_refusing 3) 7 ex_connected
                    eq_refl) H3).
Defined.

Lemma download_attachments_unexpected_exception_witness :
  mail (self ex_connected) = Some 7
  ∧ search_result ex_search_breaks (n_select (wld ex_connected))
      = inl (OtherException "AttributeError")
  ∧ is_IMAP4_error (OtherException "AttributeError") = false
  ∧ (download_attachments ex_search_breaks ex_connected).1
      = Raises (OtherException "AttributeError").
Proof.
  split_and!; [reflexivity|reflexivity|reflexivity|].
  apply (download_attachments_unexpected_exception ex_search_breaks 7 ex_connected
           (OtherException "AttributeError") eq_refl eq_refl eq_refl).
Defined.

Lemma run_account_directory_failed_witness :
  attempt_result ex_read_only (n_open (wld ex_start)) = inr 7
  ∧ (os_path_join (acc_base_dir ex_account) (today (wld ex_start))
       ∉ fs_dirs (wld ex_start))
  ∧ fs_makedirs_err ex_read_only
      (os_path_join (acc_base_dir ex_account) (today (wld ex_start)))
      = Some (OtherException "PermissionError")
  ∧ (run_account ex_read_only ex_account ex_start).1 = Returns tt
  ∧ fs_dirs (wld (run_account ex_read_only ex_account ex_start).2)
      = ex_parents "base/2024-01-02" ∪ fs_dirs (wld ex_start)
  ∧ seen (wld (run_account ex_read_only ex_account ex_start).2) = seen (wld ex_start).
Proof.
  assert (Hdir : os_path_join (acc_base_dir ex_account) (today (wld ex_start))
                   ∉ fs_dirs (wld ex_start)) by apply not_elem_of_empty.
  destruct (run_account_directory_failed ex_read_only ex_account ex_start 7
              (OtherException "PermissionError") eq_refl Hdir eq_refl)
    as (Hr & _ & Hdirs & _ & _ & Hseen).
  split_and!; [reflexivity|exact Hdir|reflexivity|exact Hr|exact Hdirs|exact Hseen].
Defined.

Lemma run_account_downloads_witness :
  attempt_result (ex_serving ex_report) (n_open (wld ex_start)) = inr 7
  ∧ fs_makedirs_err (ex_serving ex_report)
      (os_path_join (acc_base_dir ex_account) (today (wld ex_start))) = None
  ∧ os_path_join (acc_base_dir ex_account) (today (wld ex_start)) ≠ ""
  ∧ search_result (ex_serving ex_report) (n_select (wld ex_start)) = inr ["1"; "2"]
  ∧ srv_logout (ex_serving ex_report) 7 = None
  ∧ (run_account (ex_serving ex_report) ex_account ex_start).1 = Returns tt.
Proof.
  assert (Hne : os_path_join (acc_base_dir ex_account) (today (wld ex_start)) ≠ "")
    by discriminate.
  split_and!; [reflexivity|reflexivity|exact Hne|reflexivity|reflexivity|].
  apply (run_account_downloads (ex_serving ex_report) ex_account ex_start 7 ["1"; "2"]
           eq_refl (or_intror eq_refl) Hne eq_refl eq_refl).
Defined.

Lemma run_account_leaves_connection_open_witness :
  attempt_result ex_search_breaks (n_open (wld ex_start)) = inr 7
  ∧ fs_makedirs_err ex_search_breaks
      (os_path_join (acc_base_dir ex_account) (today (wld ex_start))) = None
  ∧ os_path_join (acc_base_dir ex_account) (today (wld ex_start)) ≠ ""
  ∧ search_result ex_search_breaks (n_select (wld ex_start))
      = inl (OtherException "AttributeError")
  ∧ is_IMAP4_error (OtherException "AttributeError") = false
  ∧ (run_account ex_search_breaks ex_account ex_start).1
      = Raises (OtherException "AttributeError")
  ∧ mail (self (run_account ex_search_breaks ex_account ex_start).2) = Some 7.
Proof.
  assert (Hne : os_path_join (acc_base_dir ex_account) (today (wld ex_start)) ≠ "")
    by discriminate.
  destruct (run_account_leaves_connection_open ex_search_breaks ex_account ex_start 7
              (OtherException "AttributeError")
              eq_refl (or_intror eq_refl) Hne eq_refl eq_refl) as (Hr & Hmail & _).
  split_and!; [reflexivity|reflexivity|exact Hne|reflexivity|reflexivity|exact Hr|exact Hmail].
Defined.
